(** * Verification of the schema-driven intake engine of credit-risk-agent

    Shallow embedding of [src/apply_patch.py] and of the pure and turn-level
    parts of [src/v5_runner.py].

    Conventions of the model:
    - Python objects stored in the state document are [json] values; a dict is
      an association list in insertion order whose keys are [KS] (str) or
      [KI] (int: [set_by_path] can write an int key into a dict).  JSON
      numbers are integers in this model.
    - Text is ASCII ([string] of [ascii]); Python's [str.lower], [str.strip],
      [str.isdigit] and regex [\s], [\d] are written out on that alphabet.
    - A raised Python exception is [None] of an [option]; the bind
      [x <- e ;; k] propagates it.  The state document is never aliased
      (JSON-loaded, and every list the code appends to is written back to
      its own path), so in-place mutation is modelled by rebuilding the
      value along the path. *)

From Stdlib Require Import ZArith List String Ascii Bool Lia.
Local Set Warnings "-register-all".
Import ListNotations.

Local Open Scope string_scope.
Local Open Scope list_scope.
Local Open Scope Z_scope.

Notation "x <- e ;; k" := (match e with Some x => k | None => None end)
  (at level 61, e at next level, right associativity).

(* ------------------------------------------------------------------ *)
(** ** Characters and strings *)

Definition cd (c : ascii) : Z := Z.of_nat (nat_of_ascii c).

(** [str.isspace] on ASCII: \t \n \v \f \r, \x1c-\x1f and space; it is also
    the class of the regex [\s] and what [str.strip()] removes. *)
Definition is_ws (c : ascii) : bool :=
  let n := cd c in ((9 <=? n) && (n <=? 13)) || ((28 <=? n) && (n <=? 32)).

Definition is_digit (c : ascii) : bool := let n := cd c in (48 <=? n) && (n <=? 57).

Definition digit_val (c : ascii) : Z := cd c - 48.

Definition lower_char (c : ascii) : ascii :=
  let n := cd c in
  if (65 <=? n) && (n <=? 90) then ascii_of_nat (Z.to_nat (n + 32)) else c.

Definition chars (s : string) : list ascii := list_ascii_of_string s.
Definition str (l : list ascii) : string := string_of_list_ascii l.

(** [s.lower()] *)
Definition py_lower (s : string) : string := str (map lower_char (chars s)).

Fixpoint drop_ws (l : list ascii) : list ascii :=
  match l with
  | c :: r => if is_ws c then drop_ws r else l
  | [] => []
  end.

(** [s.strip()] *)
Definition py_strip (s : string) : string :=
  str (rev (drop_ws (rev (drop_ws (chars s))))).

(** [s.replace(c, "")] for a one-character [c] *)
Definition remove_char (c : ascii) (s : string) : string :=
  str (filter (fun x => negb (Ascii.eqb x c)) (chars s)).

(** [s.isdigit()] *)
Definition py_isdigit (s : string) : bool :=
  match chars s with [] => false | l => forallb is_digit l end.

Definition digits_value (l : list ascii) : Z :=
  fold_left (fun acc c => 10 * acc + digit_val c) l 0.

Fixpoint is_prefix (p l : list ascii) : bool :=
  match p, l with
  | [], _ => true
  | a :: p', b :: l' => Ascii.eqb a b && is_prefix p' l'
  | _ :: _, [] => false
  end.

(** [s.startswith(p)] *)
Definition startswith (s p : string) : bool := is_prefix (chars p) (chars s).

(** [s.endswith(p)] *)
Definition endswith (s p : string) : bool :=
  is_prefix (rev (chars p)) (rev (chars s)).

Fixpoint contains_l (p l : list ascii) : bool :=
  is_prefix p l || match l with [] => false | _ :: l' => contains_l p l' end.

(** [p in s] for strings *)
Definition contains (s p : string) : bool := contains_l (chars p) (chars s).

(** [s.split(c)] for a one-character separator *)
Fixpoint split_l (c : ascii) (l : list ascii) : list (list ascii) :=
  match l with
  | [] => [[]]
  | x :: r =>
      if Ascii.eqb x c then [] :: split_l c r
      else match split_l c r with
           | w :: ws => (x :: w) :: ws
           | [] => [[x]]
           end
  end.

Definition py_split (c : ascii) (s : string) : list string :=
  map str (split_l c (chars s)).

(** [s.replace(old, new)]: every non-overlapping occurrence, left to right;
    an empty [old] inserts [new] around every character. *)
Fixpoint replace_l (fuel : nat) (old new l : list ascii) : list ascii :=
  match fuel with
  | O => l
  | S f =>
      match l with
      | [] => []
      | x :: r =>
          if is_prefix old l
          then new ++ replace_l f old new (skipn (List.length old) l)
          else x :: replace_l f old new r
      end
  end.

Definition py_replace (s old new : string) : string :=
  match chars old with
  | [] => str (List.concat (map (fun c => chars new ++ [c]) (chars s)) ++ chars new)
  | o => str (replace_l (S (List.length (chars s))) o (chars new) (chars s))
  end.

(** [int(s)] on a str: surrounding whitespace, an optional sign, digits with
    single underscores between them; anything else raises ValueError. *)
Fixpoint int_body (l : list ascii) : option (list ascii) :=
  match l with
  | [] => Some []
  | c :: r =>
      if is_digit c then (t <- int_body r ;; Some (c :: t))
      else if Ascii.eqb c "_"%char then
        match r with
        | d :: _ => if is_digit d then int_body r else None
        | [] => None
        end
      else None
  end.

Definition py_int (s : string) : option Z :=
  let l := chars (py_strip s) in
  let digits l := match l with
                  | d :: _ => if is_digit d then (b <- int_body l ;; Some (digits_value b)) else None
                  | [] => None
                  end in
  match l with
  | c :: r => if Ascii.eqb c "-"%char then (z <- digits r ;; Some (- z))
              else if Ascii.eqb c "+"%char then digits r
              else digits l
  | [] => None
  end.

(* ------------------------------------------------------------------ *)
(** ** Python values of the state document *)

Inductive pkey := KS (s : string) | KI (z : Z).

Inductive json :=
| JNull
| JBool (b : bool)
| JInt (z : Z)
| JStr (s : string)
| JList (l : list json)
| JObj (d : list (pkey * json)).

Definition pkey_eqb (a b : pkey) : bool :=
  match a, b with
  | KS x, KS y => String.eqb x y
  | KI x, KI y => Z.eqb x y
  | _, _ => false
  end.

(** [d.get(k)] / [k in d] *)
Fixpoint dget (d : list (pkey * json)) (k : pkey) : option json :=
  match d with
  | [] => None
  | (k', v) :: r => if pkey_eqb k' k then Some v else dget r k
  end.

(** [d[k] = v]: an existing key keeps its position, a new key goes last. *)
Fixpoint dset (d : list (pkey * json)) (k : pkey) (v : json) : list (pkey * json) :=
  match d with
  | [] => [(k, v)]
  | (k', v') :: r => if pkey_eqb k' k then (k', v) :: r else (k', v') :: dset r k v
  end.

(** [d.pop(k)]: KeyError when absent. *)
Fixpoint dpop (d : list (pkey * json)) (k : pkey) : option (list (pkey * json)) :=
  match d with
  | [] => None
  | (k', v') :: r => if pkey_eqb k' k then Some r else (r' <- dpop r k ;; Some ((k', v') :: r'))
  end.

(** Python truthiness *)
Definition truthy (v : json) : bool :=
  match v with
  | JNull => false
  | JBool b => b
  | JInt z => negb (Z.eqb z 0)
  | JStr s => negb (String.eqb s "")
  | JList l => match l with [] => false | _ => true end
  | JObj d => match d with [] => false | _ => true end
  end.

(** [v == s] for a str [s] *)
Definition is_str (v : json) (s : string) : bool :=
  match v with JStr s' => String.eqb s' s | _ => false end.

(** Python sequence index [i] into a sequence of length [n]: negative
    indices count from the end; out of range raises IndexError. *)
Definition py_index (n : nat) (i : Z) : option nat :=
  let j := if i <? 0 then i + Z.of_nat n else i in
  if (0 <=? j) && (j <? Z.of_nat n) then Some (Z.to_nat j) else None.

Fixpoint list_upd {A} (l : list A) (n : nat) (x : A) : list A :=
  match l, n with
  | [], _ => []
  | _ :: r, O => x :: r
  | y :: r, S n' => y :: list_upd r n' x
  end.

(** [while len(l) <= i: l.append(x)] *)
Definition pad {A} (l : list A) (i : Z) (x : A) : list A :=
  l ++ repeat x (Z.to_nat (i + 1 - Z.of_nat (List.length l))).

(* ------------------------------------------------------------------ *)
(** ** Path Addressor ([v5_runner.py], lines 224-273) *)

Inductive part := PK (k : string) | PI (i : Z).

(** [_parse_path]: [name[idx]] tokens split in two; [token[:-1].split('[')]
    must give exactly two pieces and [int(idx)] must parse, else ValueError. *)
Definition parse_token (t : string) : option (list part) :=
  if contains t "[" && endswith t "]" then
    match py_split "["%char (str (removelast (chars t))) with
    | [name; idx] => (i <- py_int idx ;; Some [PK name; PI i])
    | _ => None
    end
  else Some [PK t].

Fixpoint parse_tokens (ts : list string) : option (list part) :=
  match ts with
  | [] => Some []
  | t :: r => (p <- parse_token t ;; q <- parse_tokens r ;; Some (p ++ q))
  end.

Definition parse_path (path : string) : option (list part) :=
  parse_tokens (py_split "."%char path).

(** [ref[p]] on read *)
Definition subscript (ref : json) (p : part) : option json :=
  match ref, p with
  | JObj d, PK k => dget d (KS k)
  | JObj d, PI i => dget d (KI i)
  | JList l, PI i => (n <- py_index (List.length l) i ;; nth_error l n)
  | JStr s, PI i => (n <- py_index (String.length s) i ;;
                     c <- nth_error (chars s) n ;; Some (JStr (String c EmptyString)))
  | _, _ => None
  end.

Fixpoint get_parts (ref : json) (ps : list part) : option json :=
  match ps with
  | [] => Some ref
  | p :: r => (x <- subscript ref p ;; get_parts x r)
  end.

(** [get_by_path]: any exception (also from [_parse_path]) gives [None],
    i.e. [JNull]. *)
Definition get_by_path (state : json) (path : string) : json :=
  match (ps <- parse_path path ;; get_parts state ps) with
  | Some v => v
  | None => JNull
  end.

(** The final assignment [ref[last] = value] (lines 266-273). *)
Definition set_last (ref : json) (last : part) (v : json) : option json :=
  match last, ref with
  | PK k, JObj d => Some (JObj (dset d (KS k) v))
  | PI i, JList l =>
      let l' := pad l i JNull in
      (n <- py_index (List.length l') i ;; Some (JList (list_upd l' n v)))
  | PI i, JObj d =>
      (* [len(d) <= i] would call [d.append]: AttributeError *)
      if Z.of_nat (List.length d) <=? i then None else Some (JObj (dset d (KI i) v))
  | _, _ => None
  end.

(** The walk over [parts[:-1]] (lines 250-264), one segment at a time; [nxt]
    is the segment after [p].  [ref.setdefault] exists on dicts only. *)
Fixpoint set_parts (ref : json) (p : part) (rest : list part) (v : json) : option json :=
  match rest with
  | [] => set_last ref p v
  | nxt :: rest' =>
      match p with
      | PI i =>
          match ref with
          | JList l =>
              let l' := pad l i (JObj []) in
              n <- py_index (List.length l') i ;;
              c <- nth_error l' n ;;
              c' <- set_parts c nxt rest' v ;;
              Some (JList (list_upd l' n c'))
          | JObj d =>
              if Z.of_nat (List.length d) <=? i then None
              else (c <- dget d (KI i) ;;
                    c' <- set_parts c nxt rest' v ;;
                    Some (JObj (dset d (KI i) c')))
          (* on a str [ref] becomes a one-character str, on which the
             following key segment raises (no [setdefault], no item
             assignment); on any other object [len] raises *)
          | _ => None
          end
      | PK k =>
          match ref with
          | JObj d =>
              let dflt := match nxt with PI _ => JList [] | PK _ => JObj [] end in
              let c := match dget d (KS k) with Some c => c | None => dflt end in
              c' <- set_parts c nxt rest' v ;;
              Some (JObj (dset d (KS k) c'))
          | _ => None
          end
      end
  end.

(** [set_by_path]; [_parse_path] always yields a non-empty list. *)
Definition set_by_path (state : json) (path : string) (v : json) : option json :=
  ps <- parse_path path ;;
  match ps with
  | [] => None
  | p :: rest => set_parts state p rest v
  end.

(* ------------------------------------------------------------------ *)
(** ** [str()] of the values an [array_index] entry may hold *)

Fixpoint dec_digits (fuel : nat) (n : Z) (acc : list ascii) : list ascii :=
  match fuel with
  | O => acc
  | S f =>
      let acc' := ascii_of_nat (Z.to_nat (48 + n mod 10)) :: acc in
      if n <? 10 then acc' else dec_digits f (n / 10) acc'
  end.

(** [str(z)] for an int *)
Definition z_to_dec (z : Z) : string :=
  let d := dec_digits (S (Z.to_nat (Z.log2 (Z.abs z)))) (Z.abs z) [] in
  str (if z <? 0 then "-"%char :: d else d).

Definition join (sep : string) (l : list string) : string :=
  match l with
  | [] => ""
  | x :: r => fold_left (fun acc y => String.append acc (String.append sep y)) r x
  end.

(** [repr] of a str: single quotes unless it contains a single quote and
    no double quote; backslash, the quote, tab, newline, carriage return and
    the other control characters escaped. *)
Definition repr_str (s : string) : string :=
  let l := chars s in
  let q := if existsb (fun c => Ascii.eqb c "'"%char) l &&
              negb (existsb (fun c => Ascii.eqb c (ascii_of_nat 34)) l)
           then ascii_of_nat 34 else "'"%char in
  let hex n := let h d := ascii_of_nat (if d <? 10 then 48 + d else 87 + d)%nat in
               [h (n / 16)%nat; h (n mod 16)%nat] in
  let esc c :=
    let n := nat_of_ascii c in
    if Ascii.eqb c "\"%char || Ascii.eqb c q then ["\"%char; c]
    else if (n =? 9)%nat then ["\"%char; "t"%char]
    else if (n =? 10)%nat then ["\"%char; "n"%char]
    else if (n =? 13)%nat then ["\"%char; "r"%char]
    else if (n <? 32)%nat || (n =? 127)%nat then "\"%char :: "x"%char :: hex n
    else [c] in
  str (q :: List.concat (map esc l) ++ [q]).

Definition repr_key (k : pkey) : string :=
  match k with KS s => repr_str s | KI z => z_to_dec z end.

Fixpoint py_repr (v : json) : string :=
  match v with
  | JNull => "None"
  | JBool b => if b then "True" else "False"
  | JInt z => z_to_dec z
  | JStr s => repr_str s
  | JList l => String.append "[" (String.append (join ", " (map py_repr l)) "]")
  | JObj d =>
      String.append "{"
        (String.append
           (join ", " (map (fun '(k, x) => String.append (repr_key k)
                                               (String.append ": " (py_repr x))) d))
           "}")
  end.

(** [str(v)] / [f"{v}"] *)
Definition py_str (v : json) : string :=
  match v with JStr s => s | _ => py_repr v end.

Definition key_str (k : pkey) : string :=
  match k with KS s => s | KI z => z_to_dec z end.

(* ------------------------------------------------------------------ *)
(** ** Dynamic Index Resolver ([resolve_dynamic_path], lines 275-282) *)

(** [state.get("workflow_runtime", {})] *)
Definition runtime_of (state : json) : option json :=
  match state with
  | JObj d => Some (match dget d (KS "workflow_runtime") with Some r => r | None => JObj [] end)
  | _ => None
  end.

Definition resolve_dynamic_path (state : json) (path : string) : option string :=
  runtime <- runtime_of state ;;
  match runtime with
  | JObj rd =>
      match (match dget rd (KS "array_index") with Some i => i | None => JObj [] end) with
      | JObj indices =>
          Some (fold_left
                  (fun p '(k, idx) =>
                     let arr := key_str k in
                     py_replace p (String.append arr "[0]")
                                (String.append arr (String.append "[" (String.append (py_str idx) "]"))))
                  indices path)
      | _ => None
      end
  | _ => None
  end.

(* ------------------------------------------------------------------ *)
(** ** IEEE-754 binary64, round to nearest even, as exact integers *)

(** [DFin m e] is the double [m * 2^e] ([m >= 0]); [DInf] is +inf. *)
Inductive double := DFin (m e : Z) | DInf.

(** [n / d >= 2^k] *)
Definition ge_pow2 (n d k : Z) : bool :=
  if 0 <=? k then d * 2 ^ k <=? n else d <=? n * 2 ^ (- k).

Definition round_half_even (num den : Z) : Z :=
  let q := num / den in
  let r := num mod den in
  if den <? 2 * r then q + 1
  else if 2 * r <? den then q
  else if Z.even q then q else q + 1.

(** The double nearest to [n / d] ([n >= 0], [d > 0]): 53-bit significand,
    subnormals below [2^-1022], +inf from [2^1024] on. *)
Definition round_double (n d : Z) : double :=
  if n =? 0 then DFin 0 0 else
  let k0 := Z.log2 n - Z.log2 d in
  let k := if ge_pow2 n d k0 then k0 else k0 - 1 in
  let e := Z.max (k - 52) (-1074) in
  let m := if 0 <=? e then round_half_even n (d * 2 ^ e)
           else round_half_even (n * 2 ^ (- e)) d in
  let '(m, e) := if m =? 2 ^ 53 then (2 ^ 52, e + 1) else (m, e) in
  if 1024 <=? Z.log2 m + e then DInf else DFin m e.

(** [x * c] for a non-negative int [c] *)
Definition double_mul_int (x : double) (c : Z) : double :=
  match x with
  | DInf => DInf
  | DFin m e => if 0 <=? e then round_double (m * c * 2 ^ e) 1
                else round_double (m * c) (2 ^ (- e))
  end.

(** [int(x)]: truncation; OverflowError on infinity. *)
Definition double_trunc (x : double) : option Z :=
  match x with
  | DInf => None
  | DFin m e => Some (if 0 <=? e then m * 2 ^ e else m / 2 ^ (- e))
  end.

(** Comparison of two doubles by their exact values. *)
Definition double_cmp (x y : double) : comparison :=
  match x, y with
  | DInf, DInf => Eq
  | DInf, _ => Gt
  | _, DInf => Lt
  | DFin m1 e1, DFin m2 e2 =>
      let e := Z.min e1 e2 in Z.compare (m1 * 2 ^ (e1 - e)) (m2 * 2 ^ (e2 - e))
  end.

(** [float(s)] for [s] matching [\d+(\.\d+)?]: the decimal [a.b] correctly
    rounded. *)
Definition float_of_decimal (a b : list ascii) : double :=
  round_double (digits_value (a ++ b)) (10 ^ Z.of_nat (List.length b)).

(* ------------------------------------------------------------------ *)
(** ** [difflib.get_close_matches] (Python standard library) *)

Section Difflib.

(** [SequenceMatcher(None, a, b)]: [a] is the candidate, [b] the word. *)
Variables a b : list ascii.

Definition la : nat := List.length a.
Definition lb : nat := List.length b.
Definition at_a (i : nat) : ascii := nth i a " "%char.
Definition at_b (j : nat) : ascii := nth j b " "%char.

(** [autojunk]: for [len(b) >= 200] an element occurring more than
    [len(b) // 100 + 1] times is popular and left out of [b2j]. *)
Definition popular (c : ascii) : bool :=
  (200 <=? lb)%nat &&
  (lb / 100 + 1 <? count_occ ascii_dec b c)%nat.

(** [b2j[a[i]]] contains [j] *)
Definition in_b2j (i j : nat) : bool := Ascii.eqb (at_a i) (at_b j) && negb (popular (at_b j)).

(** One row of [newj2len] over [j] in [blo .. bhi-1], from the previous
    row [prev] (same indexing), and the running best [(i, j, k)]. *)
Fixpoint fl_row (i j : nat) (cnt : nat) (prevm1 : nat) (prev : list nat)
         (best : nat * nat * nat) : list nat * (nat * nat * nat) :=
  match cnt with
  | O => ([], best)
  | S c =>
      let pj := match prev with p :: _ => p | [] => O end in
      let k := if in_b2j i j then S prevm1 else O in
      let '(_, _, bs) := best in
      let best' := if (bs <? k)%nat then (S i - k, S j - k, k)%nat else best in
      let '(row, best'') := fl_row i (S j) c pj (tl prev) best' in
      (k :: row, best'')
  end.

Fixpoint fl_rows (i cnt : nat) (blo bhi : nat) (prev : list nat)
         (best : nat * nat * nat) : nat * nat * nat :=
  match cnt with
  | O => best
  | S c =>
      let '(row, best') := fl_row i blo (bhi - blo) O prev best in
      fl_rows (S i) c blo bhi row best'
  end.

Fixpoint extend_back (fuel : nat) (alo blo : nat) (m : nat * nat * nat) : nat * nat * nat :=
  match fuel with
  | O => m
  | S f =>
      let '(i, j, k) := m in
      if (alo <? i)%nat && (blo <? j)%nat && Ascii.eqb (at_a (i - 1)) (at_b (j - 1))
      then extend_back f alo blo (i - 1, j - 1, S k)%nat else m
  end.

Fixpoint extend_fwd (fuel : nat) (ahi bhi : nat) (m : nat * nat * nat) : nat * nat * nat :=
  match fuel with
  | O => m
  | S f =>
      let '(i, j, k) := m in
      if (i + k <? ahi)%nat && (j + k <? bhi)%nat && Ascii.eqb (at_a (i + k)) (at_b (j + k))
      then extend_fwd f ahi bhi (i, j, S k) else m
  end.

(** [find_longest_match(alo, ahi, blo, bhi)]; [bjunk] is empty, so only the
    first two extension loops can move. *)
Definition find_longest_match (alo ahi blo bhi : nat) : nat * nat * nat :=
  let m := fl_rows alo (ahi - alo) blo bhi (repeat O (bhi - blo)) (alo, blo, O) in
  extend_fwd (S la) ahi bhi (extend_back (S la) alo blo m).

(** Total size of [get_matching_blocks()] (the order in which the queue is
    processed, and the final collapse of adjacent blocks, do not change it). *)
Fixpoint matched (fuel : nat) (alo ahi blo bhi : nat) : nat :=
  match fuel with
  | O => O
  | S f =>
      let '(i, j, k) := find_longest_match alo ahi blo bhi in
      match k with
      | O => O
      | _ => (k + (if (alo <? i)%nat && (blo <? j)%nat then matched f alo i blo j else O)
                + (if (i + k <? ahi)%nat && (j + k <? bhi)%nat
                   then matched f (i + k) ahi (j + k) bhi else O))%nat
      end
  end.

(** [_calculate_ratio]: [2.0 * matches / length], or [1.0] *)
Definition calc_ratio (m : nat) : double :=
  match (la + lb)%nat with
  | O => DFin 1 0
  | t => round_double (2 * Z.of_nat m) (Z.of_nat t)
  end.

Definition ratio : double := calc_ratio (matched (S la) 0 la 0 lb).

Fixpoint remove_first (x : ascii) (l : list ascii) : list ascii :=
  match l with
  | [] => []
  | y :: r => if Ascii.eqb x y then r else y :: remove_first x r
  end.

(** [quick_ratio]: size of the multiset intersection *)
Fixpoint inter_count (xs avail : list ascii) : nat :=
  match xs with
  | [] => O
  | x :: r =>
      if existsb (Ascii.eqb x) avail
      then S (inter_count r (remove_first x avail))
      else inter_count r avail
  end.

Definition quick_ratio : double := calc_ratio (inter_count a b).

Definition real_quick_ratio : double := calc_ratio (Nat.min la lb).

End Difflib.

(** Python str ordering (code points, a proper prefix is smaller). *)
Fixpoint str_ltb (x y : list ascii) : bool :=
  match x, y with
  | [], [] => false
  | [], _ :: _ => true
  | _ :: _, [] => false
  | c :: x', d :: y' =>
      if (nat_of_ascii c <? nat_of_ascii d)%nat then true
      else if (nat_of_ascii d <? nat_of_ascii c)%nat then false
      else str_ltb x' y'
  end.

Definition cutoff : double := round_double 6 10.

Definition ge_cutoff (r : double) : bool :=
  match double_cmp r cutoff with Lt => false | _ => true end.

(** [(s1, x1) > (s2, x2)] *)
Definition tuple_gt (t1 t2 : double * string) : bool :=
  match double_cmp (fst t1) (fst t2) with
  | Gt => true
  | Lt => false
  | Eq => str_ltb (chars (snd t2)) (chars (snd t1))
  end.

(** [get_closest_matches(word, possibilities, n=1, cutoff=0.6)];
    [heapq.nlargest(1, result)] is [max(result)], the first maximal pair. *)
Definition get_close_matches (word : string) (possibilities : list string) : list string :=
  let w := chars word in
  let result :=
    flat_map (fun x =>
                let xa := chars x in
                if ge_cutoff (real_quick_ratio xa w) && ge_cutoff (quick_ratio xa w)
                   && ge_cutoff (ratio xa w)
                then [(ratio xa w, x)] else []) possibilities in
  match result with
  | [] => []
  | t :: r => [snd (fold_left (fun best t' => if tuple_gt t' best then t' else best) r t)]
  end.

(* ------------------------------------------------------------------ *)
(** ** Enum normalisation ([normalize_enum], lines 314-339) *)

Definition az_or_space (c : ascii) : bool :=
  let n := cd c in ((97 <=? n) && (n <=? 122)) || (n =? 32).

Definition underscores_to_spaces (v : string) : string := py_replace v "_" " ".

Definition normalize_enum (value : string) (allowed : list string) : option string :=
  let value := py_strip (py_lower value) in
  let value := str (filter az_or_space (chars value)) in
  match find (fun v => String.eqb value (underscores_to_spaces v)) allowed with
  | Some v => Some v
  | None =>
      match get_close_matches value (map underscores_to_spaces allowed) with
      | matched :: _ => find (fun v => String.eqb matched (underscores_to_spaces v)) allowed
      | [] => None
      end
  end.

(* ------------------------------------------------------------------ *)
(** ** Deterministic Extractor ([deterministic_capture], lines 346-402) *)

(** A field descriptor of the workflow ([field_meta]). *)
Record field := {
  f_path : string;
  f_type : option string;        (** [field_meta.get("type")] *)
  f_question : option string;
  f_values : list string;        (** [field_meta.get("values", [])] *)
  f_min : option Z;
  f_max : option Z
}.

Definition type_is (f : field) (t : string) : bool :=
  match f_type f with Some t' => String.eqb t' t | None => false end.

Fixpoint skip (p : ascii -> bool) (l : list ascii) : list ascii :=
  match l with
  | c :: r => if p c then skip p r else l
  | [] => []
  end.

Fixpoint take_while (p : ascii -> bool) (l : list ascii) : list ascii :=
  match l with
  | c :: r => if p c then c :: take_while p r else []
  | [] => []
  end.

Definition is_range_conn (c : ascii) : bool :=
  Ascii.eqb c "-"%char || Ascii.eqb c "/"%char || Ascii.eqb c "t"%char || Ascii.eqb c "o"%char.

(** A match of [\d+\s*[-/to]+\s*\d+] starting at the head of [l].  The four
    classes (digits, whitespace, connectors) are disjoint, so each repetition
    takes all it can, and the last [\d+] needs one digit. *)
Definition range_at (l : list ascii) : bool :=
  match l with
  | c :: r =>
      is_digit c &&
      match skip is_ws (skip is_digit r) with
      | c2 :: _ as r2 =>
          is_range_conn c2 &&
          match skip is_ws (skip is_range_conn r2) with
          | c3 :: _ => is_digit c3
          | [] => false
          end
      | [] => false
      end
  | [] => false
  end.

(** [re.search(r"\d+\s*[-/to]+\s*\d+", text)] *)
Fixpoint range_search (l : list ascii) : bool :=
  range_at l || match l with [] => false | _ :: r => range_search r end.

Definition hedge_words : list string :=
  ["about"; "around"; "rough"; "approx"; "maybe"; "depends"].

(** [any(w in text for w in [...])] *)
Definition has_hedge (text : string) : bool := existsb (contains text) hedge_words.

(** [re.fullmatch(r"\$?\s*(\d+(\.\d+)?)\s*k?", text)]: the integer and the
    fraction digits of group 1.  [\d+] and [(\.\d+)?] can only stop where
    the digits stop, so the match, when there is one, is unique. *)
Definition currency_fullmatch (l : list ascii) : option (list ascii * list ascii) :=
  let l1 := match l with c :: r => if Ascii.eqb c "$"%char then r else l | [] => [] end in
  let l2 := skip is_ws l1 in
  let a := take_while is_digit l2 in
  let l3 := skip is_digit l2 in
  let '(b, l4) :=
    match l3 with
    | c :: (d :: _) as r =>
        if Ascii.eqb c "."%char && is_digit d then (take_while is_digit r, skip is_digit r)
        else ([], l3)
    | _ => ([], l3)
    end in
  let l5 := skip is_ws l4 in
  let l6 := match l5 with c :: r => if Ascii.eqb c "k"%char then r else l5 | [] => [] end in
  match a, l6 with
  | _ :: _, [] => Some (a, b)
  | _, _ => None
  end.

Definition is_1_9 (c : ascii) : bool := let n := cd c in (49 <=? n) && (n <=? 57).

(** [0?[1-9]|[12][0-9]|3[01]] *)
Definition day_re (l : list ascii) : bool :=
  match l with
  | [d] => is_1_9 d
  | [c; d] => (Ascii.eqb c "0"%char && is_1_9 d)
              || ((Ascii.eqb c "1"%char || Ascii.eqb c "2"%char) && is_digit d)
              || (Ascii.eqb c "3"%char && (Ascii.eqb d "0"%char || Ascii.eqb d "1"%char))
  | _ => false
  end.

(** [0?[1-9]|1[0-2]] *)
Definition month_re (l : list ascii) : bool :=
  match l with
  | [d] => is_1_9 d
  | [c; d] => (Ascii.eqb c "0"%char && is_1_9 d)
              || (Ascii.eqb c "1"%char && (Ascii.eqb d "0"%char || Ascii.eqb d "1"%char
                                           || Ascii.eqb d "2"%char))
  | _ => false
  end.

(** [re.fullmatch(r"(0?[1-9]|[12][0-9]|3[01])/(0?[1-9]|1[0-2])/\d{4}", text)]:
    none of the three parts contains a slash. *)
Definition date_fullmatch (text : string) : bool :=
  match split_l "/"%char (chars text) with
  | [d; m; y] => day_re d && month_re m && (List.length y =? 4)%nat && forallb is_digit y
  | _ => false
  end.

(** The result is [Some (captured, state')], [None] when an exception
    escapes. *)
Definition deterministic_capture (state : json) (f : field) (user_text : string)
  : option (bool * json) :=
  path <- resolve_dynamic_path state (f_path f) ;;
  let raw := py_strip user_text in
  let text := remove_char "$"%char (remove_char ","%char (py_lower raw)) in
  (* INTEGER *)
  if type_is f "integer" && py_isdigit text then
    (st <- set_by_path state path (JInt (digits_value (chars text))) ;; Some (true, st))
  (* CURRENCY *)
  else if type_is f "currency" then
    if range_search (chars text) then Some (false, state)
    else if has_hedge text then Some (false, state)
    else match currency_fullmatch (chars text) with
         | None => Some (false, state)
         | Some (a, b) =>
             let value := float_of_decimal a b in
             let value := if contains text "k" then double_mul_int value 1000 else value in
             n <- double_trunc value ;;
             st <- set_by_path state path (JInt n) ;;
             Some (true, st)
         end
  else
  (* ENUM: falls through when nothing matched *)
  match (if type_is f "enum" then normalize_enum text (f_values f) else None) with
  | Some normalized =>
      if negb (String.eqb normalized "")
      then (st <- set_by_path state path (JStr normalized) ;; Some (true, st))
      else Some (false, state)
  | None =>
      (* STRING *)
      if type_is f "string" && negb (String.eqb raw "") then
        (st <- set_by_path state path (JStr raw) ;; Some (true, st))
      (* DATE *)
      else if type_is f "date" then
        if date_fullmatch text then (st <- set_by_path state path (JStr text) ;; Some (true, st))
        else Some (false, state)
      else Some (false, state)
  end.

(* ------------------------------------------------------------------ *)
(** ** Field Validator ([validate_value], lines 557-587) *)

(** [%d] of [_strptime]: [3[0-1]|[1-2]\d|0[1-9]|[1-9]| [1-9]] *)
Definition strptime_day (l : list ascii) : bool :=
  match l with
  | [d] => is_1_9 d
  | [c; d] => (Ascii.eqb c "3"%char && (Ascii.eqb d "0"%char || Ascii.eqb d "1"%char))
              || ((Ascii.eqb c "1"%char || Ascii.eqb c "2"%char) && is_digit d)
              || (Ascii.eqb c "0"%char && is_1_9 d)
              || (Ascii.eqb c " "%char && is_1_9 d)
  | _ => false
  end.

(** [%m]: [1[0-2]|0[1-9]|[1-9]] *)
Definition strptime_month (l : list ascii) : bool := month_re l.

Definition is_leap (y : Z) : bool :=
  (Z.eqb (y mod 4) 0 && negb (Z.eqb (y mod 100) 0)) || Z.eqb (y mod 400) 0.

Definition days_in_month (y m : Z) : Z :=
  if Z.eqb m 2 then (if is_leap y then 29 else 28)
  else if existsb (Z.eqb m) [4; 6; 9; 11] then 30 else 31.

(** [datetime.strptime(value, "%d/%m/%Y")]: the regex
    [(?P<d>..)/(?P<m>..)/(?P<Y>\d\d\d\d)] must cover the whole str (the
    parts contain no slash), then [datetime_date(Y, m, d)] must exist
    ([MINYEAR] is 1).  Result: (year, month, day); [None] is an exception
    (TypeError for a non-str, ValueError otherwise). *)
Definition strptime_dmy (value : json) : option (Z * Z * Z) :=
  match value with
  | JStr s =>
      match split_l "/"%char (chars s) with
      | [d; m; y] =>
          if strptime_day d && strptime_month m && (List.length y =? 4)%nat && forallb is_digit y
          then
            let day := digits_value (skip is_ws d) in
            let month := digits_value m in
            let year := digits_value y in
            if (1 <=? year) && (day <=? days_in_month year month) then Some (year, month, day)
            else None
          else None
      | _ => None
      end
  | _ => None
  end.

(** [validate_value(field_meta, value)]; [now_year] is
    [datetime.now().year]. *)
Definition validate_value (now_year : Z) (f : field) (value : json) : bool * option string :=
  match value with
  | JNull => (false, Some "missing")
  | _ =>
      let date_result :=
        if type_is f "date" then
          match strptime_dmy value with
          | None => Some (false, Some "invalid_format")
          | Some (year, _, _) =>
              if (year <? 1900) || (now_year - 18 <? year)
              then Some (false, Some "invalid_age") else None
          end
        else None in
      match date_result with
      | Some r => r
      | None =>
          if type_is f "currency" then
            (* [isinstance(value, (int, float))]: a bool is an int *)
            let num := match value with
                       | JInt z => Some z
                       | JBool b => Some (if b then 1 else 0)
                       | _ => None
                       end in
            match num with
            | None => (false, Some "not_numeric")
            | Some z =>
                match f_min f with
                | Some mn => if z <? mn then (false, Some "too_small") else
                               match f_max f with
                               | Some mx => if mx <? z then (false, Some "too_large") else (true, None)
                               | None => (true, None)
                               end
                | None => match f_max f with
                          | Some mx => if mx <? z then (false, Some "too_large") else (true, None)
                          | None => (true, None)
                          end
                end
            end
          else (true, None)
      end
  end.

(* ------------------------------------------------------------------ *)
(** ** Extraction agent post-processing ([extraction_agent], lines 511-549) *)

Section Extraction.

(** [json.loads] of the standard library, left abstract; [None] is a
    raised exception. *)
Variable json_loads : string -> option json.

(** [s.find(c)] / [s.rfind(c)]; [None] is [-1]. *)
Definition find_char (c : ascii) (l : list ascii) : option nat :=
  let fix go l i := match l with
                    | [] => None
                    | x :: r => if Ascii.eqb x c then Some i else go r (S i)
                    end in go l O.

Definition rfind_char (c : ascii) (l : list ascii) : option nat :=
  match find_char c (rev l) with
  | Some k => Some (List.length l - S k)%nat
  | None => None
  end.

(** [for p in patches: ...] with the safety filter; [p.get] on a non-dict
    raises AttributeError.  Iterating a dict yields its keys and a str its
    characters, on which [.get] raises as well; an empty one gives no
    iteration; any other object is not iterable (TypeError). *)
Fixpoint safety_filter (target_path : string) (ps : list json) : option (list json) :=
  match ps with
  | [] => Some []
  | p :: r =>
      match p with
      | JObj d =>
          rest <- safety_filter target_path r ;;
          let op := match dget d (KS "operation") with Some o => o | None => JNull end in
          if is_str op "add_object" then Some (p :: rest)
          else if is_str (match dget d (KS "path") with Some x => x | None => JNull end) target_path
          then Some (p :: rest)
          else Some rest
      | _ => None
      end
  end.

Definition filter_patches (target_path : string) (patches : json) : option (list json) :=
  match patches with
  | JList ps => safety_filter target_path ps
  | JObj [] => Some []
  | JStr s => if String.eqb s "" then Some [] else None
  | _ => None
  end.

(** The body of the [try] block: [response] is [None] when
    [generate_content] raised, [Some None] when [response.text] is None
    ([None.find] raises). *)
Definition extraction_try (target_path : string) (response : option (option string))
  : option (list json) :=
  resp <- response ;;
  text <- resp ;;
  let l := chars text in
  match find_char "["%char l, rfind_char "]"%char l with
  | Some start, Some end_ =>
      let slice := str (firstn (S end_ - start) (skipn start l)) in
      patches <- json_loads slice ;;
      filter_patches target_path patches
  | _, _ => Some []
  end.

(** [except Exception: return []] *)
Definition extraction_post (target_path : string) (response : option (option string))
  : list json :=
  match extraction_try target_path response with
  | Some safe => safe
  | None => []
  end.

(** [extraction_agent]: the target path is resolved before the [try]. *)
Definition extraction_agent (state : json) (f : field) (response : option (option string))
  : option (list json) :=
  target_path <- resolve_dynamic_path state (f_path f) ;;
  Some (extraction_post target_path response).

End Extraction.

(* ------------------------------------------------------------------ *)
(** ** Patch Engine ([src/apply_patch.py]) *)

Inductive status := Success | Ignored | Blocked.

Record outcome := { o_status : status; o_patch : json }.

(** [s.lstrip("/")] *)
Definition lstrip_slash (s : string) : string :=
  str (skip (fun c => Ascii.eqb c "/"%char) (chars s)).

(** [set_nested_value] (lines 80-96) on the dict [cur]: a missing or
    non-dict intermediate is replaced by [{}]. *)
Fixpoint nested_set (cur : list (pkey * json)) (keys : list string) (op : json) (v : json)
  : list (pkey * json) :=
  match keys with
  | [] => cur
  | [final] =>
      if is_str op "append" then
        match dget cur (KS final) with
        | Some (JList l) => dset cur (KS final) (JList (l ++ [v]))
        | _ => dset cur (KS final) (JList [v])
        end
      else dset cur (KS final) v
  | k :: rest =>
      let sub := match dget cur (KS k) with Some (JObj d) => d | _ => [] end in
      dset cur (KS k) (JObj (nested_set sub rest op v))
  end.

(** The value [current[final_key]] that the append branch of
    [set_nested_value] finds at the end of its walk: [None] when the key is
    missing, and when an intermediate is missing or not a dict (it is then
    replaced by a fresh [{}]). *)
Fixpoint nested_get (cur : list (pkey * json)) (keys : list string) : option json :=
  match keys with
  | [] => None
  | [final] => dget cur (KS final)
  | k :: rest => match dget cur (KS k) with Some (JObj d) => nested_get d rest | _ => None end
  end.

Definition set_nested_value (data : json) (path : string) (v : json) (op : json) : option json :=
  match data with
  | JObj d => Some (JObj (nested_set d (py_split "."%char path) op v))
  | _ => None
  end.

(** Lines 121-133 of the loop body.  They follow the unconditional
    [results.append({"status": "blocked", ...}); continue] of lines 118-119,
    which sit at the level of the loop body, so no patch ever reaches them. *)
Definition apply_patch_tail (state : json) (op : json) (path : string) (val : json) (patch : json)
  : option (json * outcome) :=
  if is_str op "none" then Some (state, {| o_status := Ignored; o_patch := patch |})
  else (st <- set_nested_value state path val op ;;
        Some (st, {| o_status := Success; o_patch := patch |})).

(** One iteration of the loop of [apply_patches] (lines 102-119). *)
Definition apply_patch_step (state : json) (patch : json) : option (json * outcome) :=
  d <- (match patch with JObj d => Some d | _ => None end) ;;
  let val := match dget d (KS "value") with Some v => v | None => JNull end in
  (* [path = patch.get("path", "")]; [path.startswith] needs a str *)
  path <- (match dget d (KS "path") with
           | None => Some ""
           | Some (JStr s) => Some s
           | Some _ => None
           end) ;;
  let '(path, d) :=
    if startswith path "/" then
      let p := py_replace (lstrip_slash path) "/" "." in (p, dset d (KS "path") (JStr p))
    else (path, d) in
  let patch := JObj d in
  (* the primer gate only logs: [last_message.lower()] needs a str *)
  gate <- (if String.eqb path "workflow_flags.expense_primer_shown"
           && (match val with JBool true => true | _ => false end)
        then match dget d (KS "justification") with
             | None => Some tt
             | Some (JStr _) => Some tt
             | Some _ => None
             end
        else Some tt) ;;
  Some (state, {| o_status := Blocked; o_patch := patch |}).

Fixpoint apply_patches (state : json) (patches : list json) : option (json * list outcome) :=
  match patches with
  | [] => Some (state, [])
  | p :: r =>
      so <- apply_patch_step state p ;;
      let '(st, o) := so in
      sos <- apply_patches st r ;;
      let '(st', os) := sos in
      Some (st', o :: os)
  end.

(** The dotted-path helpers of [src/apply_patch.py] (lines 8-78); they share
    their names with those of [v5_runner.py], hence the module. *)
Module ApplyPatch.

(** The loop of [get_by_path] (lines 13-26): a dict is read with [.get]; a
    list needs [int(part)] and an index in range, else None is returned;
    anything else gives None.  Once [current] is None every later part gives
    None, so going on with [JNull] is the same as returning. *)
Fixpoint get_parts (current : json) (parts : list string) : json :=
  match parts with
  | [] => current
  | part :: rest =>
      match current with
      | JObj d => get_parts (match dget d (KS part) with Some v => v | None => JNull end) rest
      | JList l =>
          match py_int part with
          | Some idx =>
              match py_index (List.length l) idx with
              | Some n => match nth_error l n with Some v => get_parts v rest | None => JNull end
              | None => JNull
              end
          | None => JNull
          end
      | _ => JNull
      end
  end.

(** [get_by_path(root, path)] (lines 8-27) *)
Definition get_by_path (root : json) (path : string) : json :=
  if String.eqb path "" then root else get_parts root (py_split "."%char path).

(** The last step of [set_by_path] (lines 51-76) on the dict [current]. *)
Definition set_target (current : json) (target_key : string) (value : json) (operation : string)
  : option (json * bool) :=
  if String.eqb operation "add" || String.eqb operation "replace" then
    match current with
    | JObj d => Some (JObj (dset d (KS target_key) value), true)
    | _ => None
    end
  else if String.eqb operation "append" then
    match current with
    | JObj d =>
        match dget d (KS target_key) with
        | None => Some (JObj (dset d (KS target_key) (JList [value])), true)
        | Some (JList l) => Some (JObj (dset d (KS target_key) (JList (l ++ [value]))), true)
        | Some _ => Some (current, false)
        end
    | _ => None
    end
  else if String.eqb operation "none" then Some (current, true)
  else Some (current, false).

(** The walk over [parts[:-1]] (lines 41-49), [part] being the next
    segment.  A missing key gets a new [{}]; a non-dict reached returns
    False, keeping what was already written.  Only the root can be a
    non-dict here: [in] raises on a number or None, and item access or
    assignment with a str key raises on a list or a str. *)
Fixpoint set_rec (current : json) (part : string) (rest : list string) (value : json)
  (operation : string) : option (json * bool) :=
  match rest with
  | [] => set_target current part value operation
  | nxt :: rest' =>
      match current with
      | JObj d =>
          match dget d (KS part) with
          | None =>
              r <- set_rec (JObj []) nxt rest' value operation ;;
              let '(c, ok) := r in Some (JObj (dset d (KS part) c), ok)
          | Some (JObj c0) =>
              r <- set_rec (JObj c0) nxt rest' value operation ;;
              let '(c, ok) := r in Some (JObj (dset d (KS part) c), ok)
          | Some _ => Some (current, false)
          end
      | _ => None
      end
  end.

(** [set_by_path(root, path, value, operation)] (lines 29-78): the root as
    mutated, and the returned bool. *)
Definition set_by_path (root : json) (path : string) (value : json) (operation : string)
  : option (json * bool) :=
  if String.eqb path "" then Some (root, false) else
  match py_split "."%char path with
  | part :: rest => set_rec root part rest value operation
  | [] => Some (root, false)
  end.

End ApplyPatch.

(* ------------------------------------------------------------------ *)
(** ** Workflow, cursor and repeat state machine ([v5_runner.py]) *)

Record section_repeat := {
  sr_array_path : string;
  sr_repeat_prompt : json          (** [repeat.get("repeat_prompt")] *)
}.

Record stage := {
  st_fields : list field;
  st_repeat : option section_repeat  (** a truthy [section_repeat] *)
}.

Record workflow := { stages : list stage }.

(** [flatten_fields] (lines 158-163) *)
Definition flatten_fields (wf : workflow) : list field :=
  flat_map st_fields (stages wf).

(** [section_map] of [run] (lines 602-607): a dict, so a later stage with
    the same array path replaces the entry in place. *)
Fixpoint sm_set (m : list (string * list string)) (k : string) (v : list string)
  : list (string * list string) :=
  match m with
  | [] => [(k, v)]
  | (k', v') :: r => if String.eqb k' k then (k', v) :: r else (k', v') :: sm_set r k v
  end.

Definition section_map (wf : workflow) : list (string * list string) :=
  fold_left (fun m s => match st_repeat s with
                        | Some rp => sm_set m (sr_array_path rp) (map f_path (st_fields s))
                        | None => m
                        end) (stages wf) [].

(** [workflow_stage_repeat_prompt] (lines 290-295) *)
Definition workflow_stage_repeat_prompt (wf : workflow) (array_path : string) : json :=
  match find (fun s => match st_repeat s with
                       | Some rp => String.eqb (sr_array_path rp) array_path
                       | None => false
                       end) (stages wf) with
  | Some s => match st_repeat s with Some rp => sr_repeat_prompt rp | None => JNull end
  | None => JStr "Do you have another Item?"
  end.

(** [find_section_start] (lines 165-169) *)
Definition find_section_start (meta_fields : list field) (array_path : string) : option nat :=
  let fix go (fs : list field) (i : nat) :=
    match fs with
    | [] => None
    | f :: r => if startswith (f_path f) (String.append array_path "[0]") then Some i
                else go r (S i)
    end in go meta_fields O.

(** An int operand: a bool is an int; anything else raises TypeError. *)
Definition as_int (v : json) : option Z :=
  match v with JInt z => Some z | JBool b => Some (if b then 1 else 0) | _ => None end.

(** [is_last_field_of_section] (lines 172-175) *)
Definition is_last_field_of_section (meta_fields : list field) (idx : json)
  (section_fields : list string) : option bool :=
  i <- as_int idx ;;
  if Z.of_nat (List.length meta_fields) <=? i + 1 then Some true
  else (n <- py_index (List.length meta_fields) (i + 1) ;;
        f <- nth_error meta_fields n ;;
        Some (negb (existsb (String.eqb (f_path f)) section_fields))).

(** [state.setdefault("workflow_runtime", {})], used as a dict. *)
Definition get_rt (st : json) : option (list (pkey * json)) :=
  match st with
  | JObj d => match dget d (KS "workflow_runtime") with
              | None => Some []
              | Some (JObj r) => Some r
              | Some _ => None
              end
  | _ => None
  end.

Definition put_rt (st : json) (r : list (pkey * json)) : json :=
  match st with
  | JObj d => JObj (dset d (KS "workflow_runtime") (JObj r))
  | _ => st
  end.

Definition rt_field (r : list (pkey * json)) (k : string) : json :=
  match dget r (KS k) with Some v => v | None => JNull end.

(** [get_active_index] (lines 181-182): both [setdefault]s write. *)
Definition get_active_index (st : json) : option (json * json) :=
  r <- get_rt st ;;
  match dget r (KS "active_index") with
  | Some v => Some (put_rt st r, v)
  | None => Some (put_rt st (dset r (KS "active_index") (JInt 0)), JInt 0)
  end.

(** [set_active_index] (lines 185-186) *)
Definition set_active_index (st : json) (v : json) : option json :=
  r <- get_rt st ;; Some (put_rt st (dset r (KS "active_index") v)).

(** [advance_field] (lines 196-197) *)
Definition advance_field (st : json) : option json :=
  si <- get_active_index st ;;
  let '(st1, idx) := si in
  i <- as_int idx ;;
  set_active_index st1 (JInt (i + 1)).

(** [current_field] (lines 189-193) *)
Definition current_field (meta_fields : list field) (st : json) : option (json * option field) :=
  si <- get_active_index st ;;
  let '(st1, idx) := si in
  i <- as_int idx ;;
  if Z.of_nat (List.length meta_fields) <=? i then Some (st1, None)
  else (n <- py_index (List.length meta_fields) i ;;
        f <- nth_error meta_fields n ;;
        Some (st1, Some f)).

(** [save_state]: reads [state["application_id"]] (KeyError when absent);
    writing the file is not modelled. *)
Definition save_state (st : json) : option unit :=
  match st with
  | JObj d => match dget d (KS "application_id") with Some _ => Some tt | None => None end
  | _ => None
  end.

(** [field_filled] (lines 301-308) *)
Definition field_filled (st : json) (path : string) : option bool :=
  p <- resolve_dynamic_path st path ;;
  match get_by_path st p with
  | JNull => Some false
  | JStr s => Some (negb (String.eqb (py_strip s) ""))
  | _ => Some true
  end.

(** [render_question] (lines 199-218) only builds the prompt text; what is
    modelled is where it raises: resolving the path, [array_path + "["] on
    an int key (TypeError), and [idx > 0] on a non-number for an array path
    that prefixes it. *)
Definition render_question_ok (st : json) (f : field) : option unit :=
  path <- resolve_dynamic_path st (f_path f) ;;
  rt <- runtime_of st ;;
  match rt with
  | JObj rd =>
      match (match dget rd (KS "array_index") with Some i => i | None => JObj [] end) with
      | JObj indices =>
          (* the first entry with [idx > 0] returns *)
          let fix go (l : list (pkey * json)) :=
            match l with
            | [] => Some tt
            | (KI _, _) :: _ => None
            | (KS a, idx) :: r =>
                if startswith path (String.append a "[")
                then (i <- as_int idx ;; if 0 <? i then Some tt else go r)
                else go r
            end in go indices
      | _ => None
      end
  | _ => None
  end.

(** [get_by_path(state, p)] for a [p] that may not be a str:
    [_parse_path] then raises inside the [try], giving None. *)
Definition get_by_json_path (st : json) (p : json) : json :=
  match p with JStr s => get_by_path st s | _ => JNull end.

Definition set_by_json_path (st : json) (p : json) (v : json) : option json :=
  match p with JStr s => set_by_path st s v | _ => None end.

(** Writing [ref[p]] back into its container. *)
Definition put_sub (ref : json) (p : part) (c : json) : option json :=
  match ref, p with
  | JObj d, PK k => Some (JObj (dset d (KS k) c))
  | JObj d, PI i => Some (JObj (dset d (KI i) c))
  | JList l, PI i => (n <- py_index (List.length l) i ;; Some (JList (list_upd l n c)))
  | _, _ => None
  end.

(** In-place mutation [g] of the object [get_by_path] reaches. *)
Fixpoint modify_parts (ref : json) (ps : list part) (g : json -> json) : option json :=
  match ps with
  | [] => Some (g ref)
  | p :: r => (c <- subscript ref p ;; c' <- modify_parts c r g ;; put_sub ref p c')
  end.

Definition modify_at (st : json) (path : string) (g : json -> json) : option json :=
  ps <- parse_path path ;; modify_parts st ps g.

(* ------------------------------------------------------------------ *)
(** ** One iteration of the turn loop of [run] (lines 611-779) *)

Inductive turn_result :=
| TComplete (st : json)                  (** "Application complete.", [break] *)
| TExit (st : json)                      (** "exit"/"quit", [break] *)
| TNext (st : json) (need_prompt : bool). (** next iteration *)

Section Turn.

Variable json_loads : string -> option json.
(** [datetime.now().year] *)
Variable now_year : Z.
Variable wf : workflow.

Definition meta_fields : list field := flatten_fields wf.

(** [runtime.setdefault("array_index", {})], used as a dict. *)
Definition array_index_of (r : list (pkey * json)) : option (list (pkey * json)) :=
  match dget r (KS "array_index") with
  | None => Some []
  | Some (JObj a) => Some a
  | Some _ => None
  end.

Definition set_array_index (st : json) (ap : string) (n : Z) : option json :=
  r <- get_rt st ;;
  ai <- array_index_of r ;;
  Some (put_rt st (dset r (KS "array_index") (JObj (dset ai (KS ap) (JInt n))))).

(** [AWAITING_REPEAT_DECISION] (lines 645-679).  The [runtime] dict of the
    source stays the one inside [state]: [set_by_path] could only replace
    it for the array path ["workflow_runtime"] itself, and then the
    following [set_active_index] raises in the source as here. *)
Definition repeat_decision (st : json) (user : string) : option turn_result :=
  r <- get_rt st ;;
  let answer := py_strip (py_lower user) in
  if String.eqb answer "yes" || String.eqb answer "y" then
    let array_path := rt_field r "awaiting_repeat_for" in
    (* [arr = get_by_path(state, array_path) or []; arr.append({})] *)
    arr <- (match (let a := get_by_json_path st array_path in
                   if truthy a then a else JList []) with
            | JList l => Some (l ++ [JObj []])
            | _ => None
            end) ;;
    st1 <- set_by_json_path st array_path (JList arr) ;;
    ap <- (match array_path with JStr s => Some s | _ => None end) ;;
    st2 <- set_array_index st1 ap (Z.of_nat (List.length arr) - 1) ;;
    let section_start := find_section_start meta_fields ap in
    st3 <- set_active_index st2 (match section_start with
                                 | Some i => JInt (Z.of_nat i)
                                 | None => JNull
                                 end) ;;
    r3 <- get_rt st3 ;;
    r4 <- dpop r3 (KS "awaiting_repeat_for") ;;
    r5 <- dpop r4 (KS "repeat_prompt") ;;
    let st4 := put_rt st3 r5 in
    u <- save_state st4 ;;
    Some (TNext st4 true)
  else if String.eqb answer "no" || String.eqb answer "n" then
    r4 <- dpop r (KS "awaiting_repeat_for") ;;
    r5 <- dpop r4 (KS "repeat_prompt") ;;
    st1 <- advance_field (put_rt st r5) ;;
    u <- save_state st1 ;;
    Some (TNext st1 true)
  else
    (* the re-prompt reads [runtime['repeat_prompt']] *)
    match dget r (KS "repeat_prompt") with
    | Some _ => Some (TNext st false)
    | None => None
    end.

(** The [for p in patches] loop of STEP 2 (lines 690-726): [Some (Some st)]
    when a patch was handled ([break]), [Some None] when none was. *)
Fixpoint handle_patches (st : json) (f : field) (patches : list json) : option (option json) :=
  match patches with
  | [] => Some None
  | p :: rest =>
      d <- (match p with JObj d => Some d | _ => None end) ;;
      let get k := match dget d (KS k) with Some v => v | None => JNull end in
      let op := get "operation" in
      (* the message reads [field_meta['question']]: KeyError when absent *)
      if is_str op "uncertain" then (q <- f_question f ;; Some (Some st))
      else if is_str op "replace" then
        resolved <- resolve_dynamic_path st (f_path f) ;;
        st1 <- set_by_path st resolved (get "value") ;;
        Some (Some st1)
      else if is_str op "add_object" then
        let array_path := get "target_array" in
        (* a list found there is appended to in place; otherwise a new [[]]
           is stored first and then appended to *)
        sl <- (match get_by_json_path st array_path, array_path with
               | JList l, JStr s =>
                   st1 <- modify_at st s (fun _ => JList (l ++ [JObj []])) ;;
                   Some (st1, S (List.length l))
               | JList _, _ => None
               | _, _ => st1 <- set_by_json_path st array_path (JList [JObj []]) ;; Some (st1, 1%nat)
               end) ;;
        let '(st1, len) := sl in
        ap <- (match array_path with JStr s => Some s | _ => None end) ;;
        st2 <- set_array_index st1 ap (Z.of_nat len - 1) ;;
        st3 <- (match find_section_start meta_fields ap with
                | Some i => set_active_index st2 (JInt (Z.of_nat i))
                | None => Some st2
                end) ;;
        Some (Some st3)
      else handle_patches st f rest
  end.

(** STEP 3 (lines 747-779): validate, then the cursor transition. *)
Definition after_capture (st : json) (f : field) : option turn_result :=
  filled <- field_filled st (f_path f) ;;
  if negb filled then Some (TNext st true) else
  resolved <- resolve_dynamic_path st (f_path f) ;;
  let value := get_by_path st resolved in
  let '(ok, reason) := validate_value now_year f value in
  if ok then
    r <- get_rt st ;;
    sa <- get_active_index (put_rt st r) ;;
    let '(st1, active_idx) := sa in
    (* the inner [for] loop over [section_map]; its [continue] moves on to
       the next array path *)
    sn <- fold_left
            (fun acc '(array_path, fields) =>
               sn <- acc ;;
               let '(s, np) := sn in
               if existsb (String.eqb (f_path f)) fields then
                 last <- is_last_field_of_section meta_fields active_idx fields ;;
                 if last then
                   rr <- get_rt s ;;
                   let s1 := put_rt s (dset (dset rr (KS "awaiting_repeat_for") (JStr array_path))
                                            (KS "repeat_prompt")
                                            (workflow_stage_repeat_prompt wf array_path)) in
                   u <- save_state s1 ;;
                   Some (s1, false)
                 else Some (s, np)
               else Some (s, np))
            (section_map wf) (Some (st1, true)) ;;
    let '(st2, np) := sn in
    st3 <- advance_field st2 ;;
    r3 <- get_rt st3 ;;
    let st4 := put_rt st3 (dset r3 (KS "last_field") (JStr (f_path f))) in
    u <- save_state st4 ;;
    Some (TNext st4 np)
  else
    st1 <- set_by_path st resolved JNull ;;
    q <- f_question f ;;
    Some (TNext st1 false).

(** Lines 643-779: the repeat decision, or capture and validation. *)
Definition turn_capture (st : json) (f : field) (user : string)
  (response : option (option string)) : option turn_result :=
  r <- get_rt st ;;
  if truthy (rt_field r "awaiting_repeat_for") then repeat_decision (put_rt st r) user
  else
  (* STEP 1 *)
  cs <- deterministic_capture st f user ;;
  let '(captured, st) := cs in
  if captured then after_capture st f
  else
  (* STEP 2 *)
  patches <- extraction_agent json_loads st f response ;;
  h <- handle_patches st f patches ;;
  match h with
  | Some st1 => Some (TNext st1 true)
  | None =>
      r <- get_rt st ;;
      let retries := match dget r (KS "clarify_retries") with Some v => v | None => JInt 0 end in
      if existsb is_digit (chars user) then
        n <- as_int retries ;;
        q <- (if 2 <=? n then Some "" else f_question f) ;;
        Some (TNext (put_rt st (dset r (KS "clarify_retries") (JInt (n + 1)))) false)
      else after_capture (put_rt st (dset r (KS "clarify_retries") (JInt 0))) f
  end.

(** The loop body for one line of user input. *)
Definition turn (st : json) (need_prompt : bool) (user : string)
  (response : option (option string)) : option turn_result :=
  sf <- current_field meta_fields st ;;
  let '(st, fm) := sf in
  match fm with
  | None => Some (TComplete st)
  | Some f =>
    u <- (if need_prompt then render_question_ok st f else Some tt) ;;
    if existsb (String.eqb (py_lower user)) ["exit"; "quit"] then Some (TExit st) else
    r <- get_rt st ;;
    let last_field := rt_field r "last_field" in
    (* correction of the previous enum answer (lines 628-641) *)
    let correction :=
      if truthy last_field then
        match find (fun g => is_str last_field (f_path g)) meta_fields with
        | Some prev => if type_is prev "enum" then normalize_enum user (f_values prev) else None
        | None => None
        end
      else None in
    match correction with
    | Some normalized =>
        if negb (String.eqb normalized "") then
          st1 <- set_by_json_path st last_field (JStr normalized) ;;
          r1 <- get_rt st1 ;;
          ai <- as_int (rt_field r1 "active_index") ;;
          let st2 := put_rt st1 (dset r1 (KS "active_index") (JInt (ai - 1))) in
          u <- save_state st2 ;;
          Some (TNext st2 true)
        else turn_capture st f user response
    | None => turn_capture st f user response
    end
  end.

End Turn.

(* ------------------------------------------------------------------ *)
(** ** Statement helpers *)

(** The first segment of [path] is a key other than ["workflow_runtime"]:
    writing there leaves the runtime dict alone. *)
Definition outside_runtime (path : string) : bool :=
  match parse_path path with
  | Some (PK k :: _) => negb (String.eqb k "workflow_runtime")
  | _ => false
  end.

(** No integer index directly follows another in a list of parts. *)
Fixpoint no_pi_pi (ps : list part) : bool :=
  match ps with
  | [] => true
  | p :: r => match p, r with PI _, PI _ :: _ => false | _, _ => true end && no_pi_pi r
  end.

(** The container [set_by_path] puts at a missing segment in front of [p]
    ([setdefault(p, [])] before an index, [setdefault(p, {})] before a key). *)
Definition fresh_for (p : part) : json :=
  match p with PI _ => JList [] | PK _ => JObj [] end.

Definition index_nonneg (p : part) : bool :=
  match p with PI i => 0 <=? i | PK _ => true end.

(* ------------------------------------------------------------------ *)
(** ** Example workflows and states *)

Definition mk_field (path type : string) (values : list string) : field :=
  {| f_path := path; f_type := Some type; f_question := Some path; f_values := values;
     f_min := None; f_max := None |}.

Definition income_repeat : section_repeat :=
  {| sr_array_path := "income_sources"; sr_repeat_prompt := JStr "Another income source?" |}.

(** A repeating income stage of one field, then a dependents question. *)
Definition wf_income : workflow :=
  {| stages := [ {| st_fields := [mk_field "income_sources[0].amount" "currency" []];
                    st_repeat := Some income_repeat |};
                 {| st_fields := [mk_field "dependents" "integer" []]; st_repeat := None |} ] |}.

(** The same, the repeating stage ending on a yes/no enum. *)
Definition wf_income_primary : workflow :=
  {| stages := [ {| st_fields := [mk_field "income_sources[0].amount" "currency" [];
                                  mk_field "income_sources[0].is_primary" "enum" ["yes"; "no"]];
                    st_repeat := Some income_repeat |};
                 {| st_fields := [mk_field "dependents" "integer" []]; st_repeat := None |} ] |}.

(** A collaborator reply that never parses. *)
Definition no_json (_ : string) : option json := None.

Definition fresh_state : json := JObj [(KS "application_id", JStr "A-1")].

(** [wf_income] after the answer 3000 to the amount question. *)
Definition income_awaiting : json :=
  JObj [(KS "application_id", JStr "A-1");
        (KS "workflow_runtime",
         JObj [(KS "active_index", JInt 1);
               (KS "awaiting_repeat_for", JStr "income_sources");
               (KS "repeat_prompt", JStr "Another income source?");
               (KS "last_field", JStr "income_sources[0].amount")]);
        (KS "income_sources", JList [JObj [(KS "amount", JInt 3000)]])].

(** ... then after the answer no to the repeat prompt. *)
Definition income_declined : json :=
  JObj [(KS "application_id", JStr "A-1");
        (KS "workflow_runtime",
         JObj [(KS "active_index", JInt 2);
               (KS "last_field", JStr "income_sources[0].amount")]);
        (KS "income_sources", JList [JObj [(KS "amount", JInt 3000)]])].

(** ... or after the answer yes. *)
Definition income_accepted : json :=
  JObj [(KS "application_id", JStr "A-1");
        (KS "workflow_runtime",
         JObj [(KS "active_index", JInt 0);
               (KS "last_field", JStr "income_sources[0].amount");
               (KS "array_index", JObj [(KS "income_sources", JInt 1)])]);
        (KS "income_sources", JList [JObj [(KS "amount", JInt 3000)]; JObj []])].

(** [wf_income_primary] after the answer 3000 to the amount question. *)
Definition primary_amount : json :=
  JObj [(KS "application_id", JStr "A-1");
        (KS "workflow_runtime",
         JObj [(KS "active_index", JInt 1);
               (KS "last_field", JStr "income_sources[0].amount")]);
        (KS "income_sources", JList [JObj [(KS "amount", JInt 3000)]])].

(** ... then after the answer no to the is_primary question. *)
Definition primary_awaiting : json :=
  JObj [(KS "application_id", JStr "A-1");
        (KS "workflow_runtime",
         JObj [(KS "active_index", JInt 2);
               (KS "last_field", JStr "income_sources[0].is_primary");
               (KS "awaiting_repeat_for", JStr "income_sources");
               (KS "repeat_prompt", JStr "Another income source?")]);
        (KS "income_sources",
         JList [JObj [(KS "amount", JInt 3000); (KS "is_primary", JStr "no")]])].

(** ... then after the answer yes to the repeat prompt. *)
Definition primary_corrected : json :=
  JObj [(KS "application_id", JStr "A-1");
        (KS "workflow_runtime",
         JObj [(KS "active_index", JInt 1);
               (KS "last_field", JStr "income_sources[0].is_primary");
               (KS "awaiting_repeat_for", JStr "income_sources");
               (KS "repeat_prompt", JStr "Another income source?")]);
        (KS "income_sources",
         JList [JObj [(KS "amount", JInt 3000); (KS "is_primary", JStr "yes")]])].

(** Patches of the Patch Engine examples. *)
Definition none_patch : json := JObj [(KS "operation", JStr "none"); (KS "path", JStr "x")].
Definition add_patch : json :=
  JObj [(KS "operation", JStr "add"); (KS "path", JStr "x"); (KS "value", JInt 1)].

(* ------------------------------------------------------------------ *)
(** ** Statement helpers and examples of the extra properties *)

Definition known_op (op : string) : Prop := In op ["add"; "replace"; "append"; "none"].

Definition pi_after_pk (ps : list part) : Prop :=
  forall i z, nth_error ps i = Some (PI z) -> i <> 0%nat /\ exists k, nth_error ps (pred i) = Some (PK k).

Definition u2s (c : ascii) : ascii := if Ascii.eqb c "_"%char then " "%char else c.

Definition enum_char (c : ascii) : bool :=
  let n := cd c in ((97 <=? n) && (n <=? 122)) || Ascii.eqb c "_"%char.

Definition add_object_patch : list (pkey * json) :=
  [(KS "operation", JStr "add_object"); (KS "target_array", JStr "income_sources")].

Definition dependents_answered : json :=
  JObj [(KS "application_id", JStr "A-1");
        (KS "workflow_runtime", JObj [(KS "active_index", JInt 1)]);
        (KS "dependents", JInt 2)].

(** The income state with the cursor at [-1], the previous answer being
    the enum [is_primary]. *)
Definition primary_negative : json :=
  JObj [(KS "application_id", JStr "A-1");
        (KS "workflow_runtime",
         JObj [(KS "active_index", JInt (-1));
               (KS "last_field", JStr "income_sources[0].is_primary")]);
        (KS "income_sources",
         JList [JObj [(KS "amount", JInt 3000); (KS "is_primary", JStr "no")]])].

Definition amount_not_numeric : json :=
  JObj [(KS "application_id", JStr "A-1");
        (KS "workflow_runtime", JObj [(KS "active_index", JInt 0)]);
        (KS "income_sources", JList [JObj [(KS "amount", JStr "abc")]])].

(* ================================================================== *)
(** * Lemmas *)

Lemma pkey_eqb_refl k : pkey_eqb k k = true.
Proof. destruct k; simpl; [apply String.eqb_refl | apply Z.eqb_refl]. Qed.

Lemma dget_dset_same d k v : dget (dset d k v) k = Some v.
Proof.
  induction d as [|[k' v'] r IH]; simpl.
  - rewrite pkey_eqb_refl; reflexivity.
  - destruct (pkey_eqb k' k) eqn:E; simpl; rewrite ?E; auto.
Qed.

Lemma py_index_lt n i m : py_index n i = Some m -> (m < n)%nat.
Proof.
  unfold py_index. intros H.
  destruct ((0 <=? (if i <? 0 then i + Z.of_nat n else i)) &&
            ((if i <? 0 then i + Z.of_nat n else i) <? Z.of_nat n)) eqn:E; [|discriminate].
  injection H as <-. apply andb_prop in E as [E1 E2].
  apply Z.leb_le in E1. apply Z.ltb_lt in E2. lia.
Qed.

Lemma py_index_nonneg n i : 0 <= i -> (Z.to_nat i < n)%nat -> py_index n i = Some (Z.to_nat i).
Proof.
  intros H1 H2. unfold py_index.
  replace (i <? 0) with false by (symmetry; apply Z.ltb_ge; lia).
  replace (0 <=? i) with true by (symmetry; apply Z.leb_le; lia).
  replace (i <? Z.of_nat n) with true by (symmetry; apply Z.ltb_lt; lia).
  reflexivity.
Qed.

Lemma list_upd_length {A} (l : list A) n x : List.length (list_upd l n x) = List.length l.
Proof. revert n; induction l; intros [|n]; simpl; auto. Qed.

Lemma nth_error_list_upd_same {A} (l : list A) n x :
  (n < List.length l)%nat -> nth_error (list_upd l n x) n = Some x.
Proof.
  revert n; induction l as [|y r IH]; intros [|n] H; simpl in *; try lia; auto.
  apply IH; lia.
Qed.

Lemma pad_length {A} (l : list A) i x :
  0 <= i -> (Z.to_nat i < List.length (pad l i x))%nat.
Proof.
  intros H. unfold pad. rewrite length_app, repeat_length. lia.
Qed.

Lemma nth_error_pad {A} (l : list A) i x :
  0 <= i ->
  nth_error (pad l i x) (Z.to_nat i) =
  match nth_error l (Z.to_nat i) with Some c => Some c | None => Some x end.
Proof.
  intros H. unfold pad.
  destruct (Nat.lt_ge_cases (Z.to_nat i) (List.length l)) as [Hlt|Hge].
  - rewrite nth_error_app1 by lia.
    destruct (nth_error l (Z.to_nat i)) eqn:E; [reflexivity|].
    apply nth_error_None in E; lia.
  - rewrite nth_error_app2 by lia.
    replace (nth_error l (Z.to_nat i)) with (@None A) by (symmetry; apply nth_error_None; lia).
    rewrite nth_error_repeat by lia. reflexivity.
Qed.

(** Whatever [set_parts] writes, reading the same segments gives it back. *)
Lemma set_parts_get ref p rest v r :
  set_parts ref p rest v = Some r -> get_parts r (p :: rest) = Some v.
Proof.
  revert ref p r.
  induction rest as [|nxt rest' IH]; intros ref p r H.
  - simpl in H. unfold set_last in H.
    destruct p as [k|i]; destruct ref as [| | | |l|d]; try discriminate.
    + injection H as <-. simpl. rewrite dget_dset_same. reflexivity.
    + destruct (py_index (List.length (pad l i JNull)) i) as [n|] eqn:E; [|discriminate].
      injection H as <-. simpl. rewrite list_upd_length, E.
      rewrite nth_error_list_upd_same by (eapply py_index_lt; eauto). reflexivity.
    + destruct (Z.of_nat (List.length d) <=? i); [discriminate|].
      injection H as <-. simpl. rewrite dget_dset_same. reflexivity.
  - simpl in H. destruct p as [k|i]; destruct ref as [| | | |l|d]; try discriminate.
    + destruct (set_parts _ nxt rest' v) as [c'|] eqn:E; [|discriminate].
      injection H as <-. simpl. rewrite dget_dset_same. apply (IH _ _ _ E).
    + destruct (py_index (List.length (pad l i (JObj []))) i) as [n|] eqn:En; [|discriminate].
      destruct (nth_error (pad l i (JObj [])) n) as [c|]; [|discriminate].
      destruct (set_parts c nxt rest' v) as [c'|] eqn:E; [|discriminate].
      injection H as <-. simpl. rewrite list_upd_length, En.
      rewrite nth_error_list_upd_same by (eapply py_index_lt; eauto).
      apply (IH _ _ _ E).
    + destruct (Z.of_nat (List.length d) <=? i); [discriminate|].
      destruct (dget d (KI i)) as [c|]; [|discriminate].
      destruct (set_parts c nxt rest' v) as [c'|] eqn:E; [|discriminate].
      injection H as <-. simpl. rewrite dget_dset_same. apply (IH _ _ _ E).
Qed.

Lemma set_by_path_get state path v state' :
  set_by_path state path v = Some state' -> get_by_path state' path = v.
Proof.
  unfold set_by_path, get_by_path.
  destruct (parse_path path) as [[|p rest]|]; try discriminate.
  intros H. apply set_parts_get in H. rewrite H. reflexivity.
Qed.

Lemma pkey_eqb_eq a b : pkey_eqb a b = true <-> a = b.
Proof.
  destruct a as [x|x], b as [y|y]; simpl; split; intro H; try discriminate.
  - apply String.eqb_eq in H; subst; reflexivity.
  - inversion H; apply String.eqb_refl.
  - apply Z.eqb_eq in H; subst; reflexivity.
  - inversion H; apply Z.eqb_refl.
Qed.

Lemma pkey_eqb_neq a b : a <> b -> pkey_eqb a b = false.
Proof. intro H. destruct (pkey_eqb a b) eqn:E; [apply pkey_eqb_eq in E; contradiction | reflexivity]. Qed.

Lemma dget_dset_other d k k' v : k' <> k -> dget (dset d k v) k' = dget d k'.
Proof.
  intro Hne. induction d as [|[k0 v0] r IH]; simpl.
  - rewrite pkey_eqb_neq by congruence. reflexivity.
  - destruct (pkey_eqb k0 k) eqn:E; simpl.
    + apply pkey_eqb_eq in E; subst. rewrite !pkey_eqb_neq by congruence. reflexivity.
    + destruct (pkey_eqb k0 k'); [reflexivity | exact IH].
Qed.

Lemma dget_notin d k : ~ In k (map fst d) -> dget d k = None.
Proof.
  induction d as [|[k0 v0] r IH]; simpl; intro H; [reflexivity|].
  rewrite pkey_eqb_neq by (intro E; apply H; left; exact E). apply IH. tauto.
Qed.

Lemma dpop_dget_other d k k' d' : dpop d k = Some d' -> k' <> k -> dget d' k' = dget d k'.
Proof.
  revert d'. induction d as [|[k0 v0] r IH]; simpl; intros d' H Hne; [discriminate|].
  destruct (pkey_eqb k0 k) eqn:E.
  - inversion H; subst. apply pkey_eqb_eq in E; subst. rewrite pkey_eqb_neq by congruence. reflexivity.
  - destruct (dpop r k) eqn:E2; [|discriminate]. inversion H; subst. simpl.
    destruct (pkey_eqb k0 k'); [reflexivity | apply IH; auto].
Qed.

Lemma dpop_keys d k d' x : dpop d k = Some d' -> In x (map fst d') -> In x (map fst d).
Proof.
  revert d'. induction d as [|[k0 v0] r IH]; simpl; intros d' H Hx; [discriminate|].
  destruct (pkey_eqb k0 k).
  - inversion H; subst. right; exact Hx.
  - destruct (dpop r k) eqn:E2; [|discriminate]. inversion H; subst. simpl in Hx.
    destruct Hx as [Hx|Hx]; [left; exact Hx | right; eapply IH; eauto].
Qed.

Lemma dpop_nodup d k d' : NoDup (map fst d) -> dpop d k = Some d' -> NoDup (map fst d').
Proof.
  revert d'. induction d as [|[k0 v0] r IH]; simpl; intros d' Hnd H; [discriminate|].
  inversion Hnd; subst. destruct (pkey_eqb k0 k).
  - inversion H; subst. assumption.
  - destruct (dpop r k) eqn:E2; [|discriminate]. inversion H; subst. simpl.
    constructor; [intro Hin; apply H2; eapply dpop_keys; eauto | apply IH; auto].
Qed.

Lemma dpop_dget_same d k d' : NoDup (map fst d) -> dpop d k = Some d' -> dget d' k = None.
Proof.
  revert d'. induction d as [|[k0 v0] r IH]; simpl; intros d' Hnd H; [discriminate|].
  inversion Hnd; subst. destruct (pkey_eqb k0 k) eqn:E.
  - inversion H; subst. apply pkey_eqb_eq in E; subst. apply dget_notin; assumption.
  - destruct (dpop r k) eqn:E2; [|discriminate]. inversion H; subst. simpl. rewrite E. apply IH; auto.
Qed.

Lemma dset_keys d k v x : In x (map fst (dset d k v)) -> In x (map fst d) \/ x = k.
Proof.
  induction d as [|[k0 v0] r IH]; simpl; intro H.
  - destruct H as [H|[]]; right; symmetry; exact H.
  - destruct (pkey_eqb k0 k); simpl in H; destruct H as [H|H]; auto.
    destruct (IH H); auto.
Qed.

Lemma dset_nodup d k v : NoDup (map fst d) -> NoDup (map fst (dset d k v)).
Proof.
  induction d as [|[k0 v0] r IH]; simpl; intro Hnd.
  - constructor; [intros []|constructor].
  - inversion Hnd; subst. destruct (pkey_eqb k0 k) eqn:E; simpl.
    + constructor; assumption.
    + constructor; [|apply IH; assumption].
      intro Hin. destruct (dset_keys _ _ _ _ Hin) as [H'|H']; [contradiction|].
      subst. rewrite (proj2 (pkey_eqb_eq _ _) eq_refl) in E. discriminate.
Qed.

Lemma get_rt_put_rt s r0 r : get_rt s = Some r0 -> get_rt (put_rt s r) = Some r.
Proof. destruct s; simpl; try discriminate. intros _. rewrite dget_dset_same. reflexivity. Qed.

Lemma set_parts_key ref k rest v st1 :
  set_parts ref (PK k) rest v = Some st1 -> exists d x, ref = JObj d /\ st1 = JObj (dset d (KS k) x).
Proof.
  destruct rest as [|nxt rest]; simpl.
  - destruct ref; try discriminate. intro H; inversion H; subst; eauto.
  - destruct ref; try discriminate.
    destruct (set_parts _ nxt rest v); [|discriminate]. intro H; inversion H; subst; eauto.
Qed.

Lemma outside_runtime_head ap : outside_runtime ap = true ->
  exists k rest, parse_path ap = Some (PK k :: rest) /\ KS "workflow_runtime" <> KS k.
Proof.
  unfold outside_runtime. destruct (parse_path ap) as [[|[k|i] rest]|]; try discriminate.
  intro H. exists k, rest. split; [reflexivity|]. intro E; inversion E; subst.
  rewrite String.eqb_refl in H. discriminate.
Qed.

Lemma set_by_path_rt st ap v st1 : outside_runtime ap = true ->
  set_by_path st ap v = Some st1 -> get_rt st1 = get_rt st.
Proof.
  intros Ho H. destruct (outside_runtime_head ap Ho) as (k & rest & Hp & Hk).
  unfold set_by_path in H. rewrite Hp in H.
  destruct (set_parts_key _ _ _ _ _ H) as (d & x & -> & ->). simpl.
  rewrite dget_dset_other by exact Hk. reflexivity.
Qed.

Lemma get_by_path_put_rt s r ap : outside_runtime ap = true ->
  get_by_path (put_rt s r) ap = get_by_path s ap.
Proof.
  intro Ho. destruct (outside_runtime_head ap Ho) as (k & rest & Hp & Hk).
  destruct s; try reflexivity. unfold get_by_path. rewrite Hp. simpl.
  rewrite dget_dset_other by congruence. reflexivity.
Qed.

(** X24. The yes branch of the repeat decision (lines 649-664), when it is reached: for the answer yes or y (lowercased, trimmed), an array path outside [workflow_runtime] and a runtime dict with distinct keys, a completed step turns the value at the array path into the old list (or [[]] when the old value was falsy) with one [{}] appended; [array_index] maps the path to the new item's index; [active_index] becomes [find_section_start] of the path (None when no field path starts with the path followed by [[0]]); [awaiting_repeat_for] and [repeat_prompt] are removed. *)
Theorem repeat_yes_appends_one wf st user ap r st' b :
  get_rt st = Some r -> NoDup (map fst r) ->
  dget r (KS "awaiting_repeat_for") = Some (JStr ap) ->
  In (py_strip (py_lower user)) ["yes"; "y"] ->
  outside_runtime ap = true ->
  repeat_decision wf st user = Some (TNext st' b) ->
  exists l,
    (if truthy (get_by_path st ap) then get_by_path st ap = JList l else l = []) /\
    get_by_path st' ap = JList (l ++ [JObj []]) /\
    exists r', get_rt st' = Some r' /\
      (exists ai, dget r' (KS "array_index") = Some (JObj ai) /\
                  dget ai (KS ap) = Some (JInt (Z.of_nat (List.length l)))) /\
      dget r' (KS "active_index") =
        Some (match find_section_start (meta_fields wf) ap with
              | Some i => JInt (Z.of_nat i) | None => JNull end) /\
      dget r' (KS "awaiting_repeat_for") = None /\
      dget r' (KS "repeat_prompt") = None.
Proof.
  intros Hrt Hnd Haw Hyes Hout H.
  unfold repeat_decision in H. rewrite Hrt in H.
  assert (Hans : (String.eqb (py_strip (py_lower user)) "yes"
                  || String.eqb (py_strip (py_lower user)) "y") = true)
    by (destruct Hyes as [E|[E|[]]]; rewrite <- E; reflexivity).
  rewrite Hans in H. unfold rt_field in H. rewrite Haw in H. cbn zeta in H.
  unfold get_by_json_path, set_by_json_path in H.
  set (a := get_by_path st ap) in *.
  assert (Hl : exists l, (if truthy a then a = JList l else l = []) /\
                         (if truthy a then a else JList []) = JList l).
  { destruct (truthy a) eqn:Ht.
    - destruct a; try discriminate H; eauto.
    - eauto. }
  destruct Hl as (l & Hl1 & Hl2). rewrite Hl2 in H. exists l. split; [exact Hl1|].
  destruct (set_by_path st ap (JList (l ++ [JObj []]))) as [st1|] eqn:Hs1; [|discriminate].
  pose proof (set_by_path_get _ _ _ _ Hs1) as Hg1.
  pose proof (set_by_path_rt _ _ _ _ Hout Hs1) as Hr1. rewrite Hrt in Hr1.
  unfold set_array_index in H. rewrite Hr1 in H.
  destruct (array_index_of r) as [ai|] eqn:Hai; [|discriminate].
  set (r2 := dset r (KS "array_index")
               (JObj (dset ai (KS ap) (JInt (Z.of_nat (List.length (l ++ [JObj []])) - 1))))) in *.
  unfold set_active_index in H. rewrite (get_rt_put_rt _ _ r2 Hr1) in H.
  set (r3 := dset r2 (KS "active_index") _) in *.
  rewrite (get_rt_put_rt _ _ r3 (get_rt_put_rt _ _ r2 Hr1)) in H.
  destruct (dpop r3 (KS "awaiting_repeat_for")) as [r4|] eqn:Hp4; [|discriminate].
  destruct (dpop r4 (KS "repeat_prompt")) as [r5|] eqn:Hp5; [|discriminate].
  destruct (save_state _); [|discriminate]. inversion H; subst st' b; clear H.
  split.
  { rewrite !get_by_path_put_rt by exact Hout. exact Hg1. }
  exists r5. split.
  { eapply get_rt_put_rt. eapply get_rt_put_rt. eapply get_rt_put_rt. exact Hr1. }
  assert (Hnd3 : NoDup (map fst r3)) by (apply dset_nodup, dset_nodup, Hnd).
  assert (Hnd4 : NoDup (map fst r4)) by (eapply dpop_nodup; eauto).
  assert (Hg5 : forall k, k <> KS "awaiting_repeat_for" -> k <> KS "repeat_prompt" ->
                dget r5 k = dget r3 k).
  { intros k H1 H2. rewrite (dpop_dget_other _ _ _ _ Hp5 H2). exact (dpop_dget_other _ _ _ _ Hp4 H1). }
  split; [|split; [|split]].
  - exists (dset ai (KS ap) (JInt (Z.of_nat (List.length (l ++ [JObj []])) - 1))).
    rewrite Hg5 by discriminate. unfold r3. rewrite dget_dset_other by discriminate.
    unfold r2. rewrite dget_dset_same. split; [reflexivity|].
    rewrite dget_dset_same. rewrite length_app. simpl. do 2 f_equal. lia.
  - rewrite Hg5 by discriminate. unfold r3. apply dget_dset_same.
  - rewrite (dpop_dget_other _ _ _ _ Hp5) by discriminate.
    exact (dpop_dget_same r3 _ _ Hnd3 Hp4).
  - exact (dpop_dget_same r4 _ _ Hnd4 Hp5).
Qed.

Lemma apply_patch_step_blocked st p st' o :
  apply_patch_step st p = Some (st', o) -> st' = st /\ o_status o = Blocked.
Proof.
  unfold apply_patch_step. intro H.
  repeat match type of H with
         | context [match ?x with _ => _ end] => destruct x; try discriminate H
         end.
  all: inversion H; subst; split; reflexivity.
Qed.

(** Claim C3.  For every state and every batch of patches, when
    [apply_patches] returns, the state it returns is the state it was given,
    and it reports one outcome per patch, each [Blocked]: no patch, blocked
    or not, mutates the state. *)
Theorem apply_patches_blocked_keeps_state st ps st' os :
  apply_patches st ps = Some (st', os) ->
  st' = st /\ List.length os = List.length ps /\ Forall (fun o => o_status o = Blocked) os.
Proof.
  revert st st' os. induction ps as [|p ps IH]; simpl; intros st st' os H.
  - inversion H; subst. repeat constructor.
  - destruct (apply_patch_step st p) as [[s o]|] eqn:E; [|discriminate].
    destruct (apply_patches s ps) as [[s' os']|] eqn:E2; [|discriminate].
    inversion H; subst. destruct (apply_patch_step_blocked _ _ _ _ E) as [-> Ho].
    destruct (IH _ _ _ E2) as (-> & Hl & Hf). simpl. auto.
Qed.

Lemma find_in {A} (f : A -> bool) l x : find f l = Some x -> In x l.
Proof.
  induction l as [|y l IH]; simpl; [discriminate|].
  destruct (f y); [intro H; inversion H; left; reflexivity | intro H; right; auto].
Qed.

Lemma normalize_enum_in value allowed w : normalize_enum value allowed = Some w -> In w allowed.
Proof.
  unfold normalize_enum.
  destruct (find _ allowed) eqn:E.
  - intro H; inversion H; subst. eapply find_in; eauto.
  - destruct (get_close_matches _ _); [discriminate|]. apply find_in.
Qed.

Lemma type_is_other f t t' : f_type f = Some t -> t <> t' -> type_is f t' = false.
Proof. unfold type_is. intros -> H. apply String.eqb_neq. exact H. Qed.

(** Claim C10.  [normalize_enum] returns None or a member of the allowed
    list as spelled there; hence an enum field captured by
    [deterministic_capture] holds, at the resolved path, a member of the
    field's declared values. *)
Theorem enum_capture_in_values value allowed st f user st' :
  (normalize_enum value allowed = None \/
   exists w, In w allowed /\ normalize_enum value allowed = Some w) /\
  (f_type f = Some "enum" -> deterministic_capture st f user = Some (true, st') ->
   exists path w, resolve_dynamic_path st (f_path f) = Some path /\ In w (f_values f) /\
                  set_by_path st path (JStr w) = Some st').
Proof.
  split.
  - destruct (normalize_enum value allowed) as [w|] eqn:E; [right|left; reflexivity].
    exists w. split; [eapply normalize_enum_in; eauto | reflexivity].
  - intros Hty H. unfold deterministic_capture in H.
    destruct (resolve_dynamic_path st (f_path f)) as [path|] eqn:Hr; [|discriminate].
    rewrite (type_is_other f "enum" "integer"), (type_is_other f "enum" "currency") in H
      by (assumption || discriminate).
    simpl andb in H. cbv iota in H. unfold type_is at 1 in H. rewrite Hty in H. simpl String.eqb in H.
    cbv iota in H.
    destruct (normalize_enum _ (f_values f)) as [w|] eqn:En.
    + destruct (negb (String.eqb w "")); [|discriminate].
      destruct (set_by_path st path (JStr w)) as [s|] eqn:Hs; [|discriminate].
      inversion H; subst. exists path, w. repeat split; auto. eapply normalize_enum_in; eauto.
    + rewrite (type_is_other f "enum" "string"), (type_is_other f "enum" "date") in H
        by (assumption || discriminate).
      simpl in H. discriminate.
Qed.

Lemma safety_filter_in target ps out p :
  safety_filter target ps = Some out -> In p out ->
  exists d, p = JObj d /\
    (dget d (KS "operation") = Some (JStr "add_object") \/ dget d (KS "path") = Some (JStr target)).
Proof.
  revert out. induction ps as [|q ps IH]; simpl; intros out H Hin.
  - inversion H; subst. destruct Hin.
  - destruct q; try discriminate.
    destruct (safety_filter target ps) as [rest|] eqn:E; [|discriminate].
    destruct (is_str _ "add_object") eqn:Ho.
    + inversion H; subst. destruct Hin as [<-|Hin]; [|eapply IH; eauto].
      exists d. split; [reflexivity|]. left.
      destruct (dget d (KS "operation")) as [[]|]; try discriminate.
      simpl in Ho. apply String.eqb_eq in Ho. subst. reflexivity.
    + destruct (is_str _ target) eqn:Hp.
      * inversion H; subst. destruct Hin as [<-|Hin]; [|eapply IH; eauto].
        exists d. split; [reflexivity|]. right.
        destruct (dget d (KS "path")) as [[]|]; try discriminate.
        simpl in Hp. apply String.eqb_eq in Hp. subst. reflexivity.
      * inversion H; subst. eapply IH; eauto.
Qed.

(** Claim C9.  The post-processing of the collaborator reply is a total
    function of the reply (every exception inside the [try] gives [[]]).
    Every proposal it returns is a dict whose operation is [add_object] or
    whose path is the targeted field's resolved path; and it returns a
    proposal only if the reply text had a [[] and a []] and the slice between
    them parsed as a JSON list, so a missing, empty, bracket-free or
    malformed reply gives no proposal. *)
Theorem extraction_post_safe json_loads target response p :
  In p (extraction_post json_loads target response) ->
  (exists d, p = JObj d /\
     (dget d (KS "operation") = Some (JStr "add_object") \/ dget d (KS "path") = Some (JStr target))) /\
  (exists text i j ps, response = Some (Some text) /\
     find_char "["%char (chars text) = Some i /\ rfind_char "]"%char (chars text) = Some j /\
     json_loads (str (firstn (S j - i) (skipn i (chars text)))) = Some (JList ps)).
Proof.
  unfold extraction_post, extraction_try. intro Hin.
  destruct response as [[text|]|]; try destruct Hin.
  destruct (find_char "["%char (chars text)) as [i|] eqn:Hi;
    [|destruct Hin].
  destruct (rfind_char "]"%char (chars text)) as [j|] eqn:Hj; [|destruct Hin].
  destruct (json_loads _) as [patches|] eqn:Hl; [|destruct Hin].
  destruct (filter_patches target patches) as [safe|] eqn:Hf; [|destruct Hin].
  destruct patches as [|b|z|s|ps|d]; simpl in Hf; try discriminate.
  - destruct (String.eqb s ""); [|discriminate]. inversion Hf; subst. destruct Hin.
  - split; [eapply safety_filter_in; eauto|]. exists text, i, j, ps. auto.
  - destruct d; [|discriminate]. inversion Hf; subst. destruct Hin.
Qed.

(** Claim C7 (amended).  For an integer field whose path resolves, the
    capture accepts exactly when the trimmed, lowercased text with every
    comma and dollar sign removed is a non-empty digit sequence, and then
    writes its value; otherwise it reports no match and leaves the state
    unchanged. *)
Theorem integer_capture_digits st f user path :
  f_type f = Some "integer" ->
  resolve_dynamic_path st (f_path f) = Some path ->
  deterministic_capture st f user =
    (let text := remove_char "$"%char (remove_char ","%char (py_lower (py_strip user))) in
     if py_isdigit text
     then (st' <- set_by_path st path (JInt (digits_value (chars text))) ;; Some (true, st'))
     else Some (false, st)).
Proof.
  intros Hty Hr. unfold deterministic_capture. rewrite Hr. cbv zeta.
  unfold type_is at 1. rewrite Hty. simpl String.eqb. cbv iota. simpl andb.
  destruct (py_isdigit _); [reflexivity|].
  rewrite (type_is_other f "integer" "currency"), (type_is_other f "integer" "enum"),
    (type_is_other f "integer" "string"), (type_is_other f "integer" "date")
    by (assumption || discriminate).
  reflexivity.
Qed.

(** Claim C8 (amended).  For a date field and a value other than None,
    [validate_value] gives [invalid_format] exactly when
    [strptime(value, "%d/%m/%Y")] fails (not a str, not of the form
    [%d/%m/%Y], or no such date), [invalid_age] exactly when the parsed year
    is before 1900 or after the current year minus 18 (years only, not the
    day of the year), and accepts the value otherwise. *)
Theorem date_validation_exact now_year f value :
  f_type f = Some "date" -> value <> JNull ->
  validate_value now_year f value =
    match strptime_dmy value with
    | None => (false, Some "invalid_format")
    | Some (year, _, _) =>
        if (year <? 1900) || (now_year - 18 <? year)
        then (false, Some "invalid_age") else (true, None)
    end.
Proof.
  intros Hty Hv. unfold validate_value.
  assert (Hc : type_is f "currency" = false) by (apply (type_is_other f "date"); congruence).
  assert (Hd : type_is f "date" = true) by (unfold type_is; rewrite Hty; reflexivity).
  rewrite Hc, Hd.
  destruct (strptime_dmy value) as [[[y m] d']|].
  - destruct ((y <? 1900) || (now_year - 18 <? y)); destruct value; try congruence; reflexivity.
  - destruct value; try congruence; reflexivity.
Qed.

Lemma currency_rejects_range_or_hedge st f user path :
  f_type f = Some "currency" ->
  resolve_dynamic_path st (f_path f) = Some path ->
  (let text := remove_char "$"%char (remove_char ","%char (py_lower (py_strip user))) in
   range_search (chars text) || has_hedge text = true) ->
  deterministic_capture st f user = Some (false, st).
Proof.
  intros Hty Hr Hrh. cbv zeta in Hrh. unfold deterministic_capture. rewrite Hr. cbv zeta.
  rewrite (type_is_other f "currency" "integer") by (assumption || discriminate).
  assert (Hc : type_is f "currency" = true) by (unfold type_is; rewrite Hty; reflexivity).
  rewrite Hc. simpl andb. cbv iota.
  destruct (range_search _); [reflexivity|]. simpl in Hrh. rewrite Hrh. reflexivity.
Qed.

(* ------------------------------------------------------------------ *)
(** ** Concrete runs *)

(** Claim C1 (code bug).  A [none] patch is reported [Blocked], not
    [Ignored], and an [add] patch is reported [Blocked] with the state left
    unchanged: the [results.append(blocked); continue] of lines 118-119 sits
    at the level of the loop body, so lines 121-133, which give [Ignored]
    and [Success] ([apply_patch_tail]), are never reached. *)
Theorem apply_patches_none_add_blocked :
  apply_patches (JObj []) [none_patch; add_patch] =
    Some (JObj [], [{| o_status := Blocked; o_patch := none_patch |};
                    {| o_status := Blocked; o_patch := add_patch |}]) /\
  apply_patch_tail (JObj []) (JStr "none") "x" JNull none_patch =
    Some (JObj [], {| o_status := Ignored; o_patch := none_patch |}) /\
  apply_patch_tail (JObj []) (JStr "add") "x" (JInt 1) add_patch =
    Some (JObj [(KS "x", JInt 1)], {| o_status := Success; o_patch := add_patch |}).
Proof. repeat split; vm_compute; reflexivity. Qed.

Lemma apply_patches_blocked_keeps_state_witness :
  apply_patches fresh_state [add_patch] =
    Some (fresh_state, [{| o_status := Blocked; o_patch := add_patch |}]) /\
  Forall (fun o => o_status o = Blocked) [{| o_status := Blocked; o_patch := add_patch |}].
Proof.
  assert (H : apply_patches fresh_state [add_patch] =
                Some (fresh_state, [{| o_status := Blocked; o_patch := add_patch |}]))
    by (vm_compute; reflexivity).
  split; [exact H|].
  exact (proj2 (proj2 (apply_patches_blocked_keeps_state _ _ _ _ H))).
Defined.

(** Claim C2 (code bug).  Capturing 3000 for the last field of the
    repeating income stage sets [awaiting_repeat_for] and the repeat prompt
    but also moves the cursor from 0 to 1: the [continue] of line 771 only
    continues the inner loop over [section_map], and [advance_field] runs
    after it.  Answering no to the repeat prompt then advances once more, so
    the [dependents] question is never asked and the run completes. *)
Theorem last_section_field_advances_cursor :
  turn no_json 2026 wf_income fresh_state true "3000" None =
    Some (TNext income_awaiting false) /\
  get_by_path income_awaiting "workflow_runtime.active_index" = JInt 1 /\
  get_by_path income_awaiting "workflow_runtime.awaiting_repeat_for" = JStr "income_sources" /\
  turn no_json 2026 wf_income income_awaiting false "no" None =
    Some (TNext income_declined true) /\
  turn no_json 2026 wf_income income_declined true "" None = Some (TComplete income_declined) /\
  get_by_path income_declined "dependents" = JNull.
Proof. repeat split; vm_compute; reflexivity. Qed.

(** Claim C4 (code bug).  The repeating stage of [wf_income_primary]
    ends on the yes/no enum [is_primary].  After 3000 and no, the state
    awaits the repeat decision, and [last_field] is [is_primary]: the C2
    slip runs line 770 after the repeat prompt was set.  The answer yes to
    the repeat prompt is then taken as a correction of that previous enum
    answer, because lines 628-641 run before the awaiting check of line 645:
    [is_primary] becomes yes, the cursor moves back to 1, no item is
    appended and [awaiting_repeat_for] stays set.  On the same state the
    awaiting branch itself ([repeat_decision]) would have appended the item
    and cleared [awaiting_repeat_for]. *)
Lemma repeat_yes_taken_by_correction :
  turn no_json 2026 wf_income_primary fresh_state true "3000" None =
    Some (TNext primary_amount true) /\
  turn no_json 2026 wf_income_primary primary_amount true "no" None =
    Some (TNext primary_awaiting false) /\
  turn no_json 2026 wf_income_primary primary_awaiting false "yes" None =
    Some (TNext primary_corrected true) /\
  get_by_path primary_corrected "income_sources[1]" = JNull /\
  get_by_path primary_corrected "workflow_runtime.awaiting_repeat_for" = JStr "income_sources" /\
  match repeat_decision wf_income_primary primary_awaiting "yes" with
  | Some (TNext st' _) =>
      get_by_path st' "income_sources[1]" = JObj [] /\
      get_by_path st' "workflow_runtime.awaiting_repeat_for" = JNull
  | _ => False
  end.
Proof.
  do 5 (split; [vm_compute; reflexivity|]).
  vm_compute. split; reflexivity.
Qed.

Lemma repeat_yes_appends_one_witness :
  repeat_decision wf_income income_awaiting "yes" = Some (TNext income_accepted true) /\
  exists l, get_by_path income_accepted "income_sources" = JList (l ++ [JObj []]).
Proof.
  assert (H : repeat_decision wf_income income_awaiting "yes" = Some (TNext income_accepted true))
    by (vm_compute; reflexivity).
  split; [exact H|].
  destruct (repeat_yes_appends_one wf_income income_awaiting "yes" "income_sources"
              [(KS "active_index", JInt 1);
               (KS "awaiting_repeat_for", JStr "income_sources");
               (KS "repeat_prompt", JStr "Another income source?");
               (KS "last_field", JStr "income_sources[0].amount")]
              income_accepted true
              ltac:(vm_compute; reflexivity)
              ltac:(vm_compute; repeat constructor; simpl; intuition discriminate)
              ltac:(vm_compute; reflexivity)
              ltac:(vm_compute; left; reflexivity)
              ltac:(vm_compute; reflexivity)
              H) as (l & _ & Hl & _).
  exists l. exact Hl.
Defined.

(** Claim C5 (code bug).  [set_by_path] raises on valid paths.  For
    [a.b] on [{a: 5}], [setdefault] (line 264) returns the int 5 and line
    273 assigns into it: TypeError.  For [a[-1]] on [{}], line 262 creates
    [[]], the padding loop of line 269 adds nothing for [-1], and line 271
    raises IndexError.  Nothing guards or catches either. *)
Lemma set_by_path_not_total :
  parse_path "a.b" = Some [PK "a"; PK "b"] /\
  set_by_path (JObj [(KS "a", JInt 5)]) "a.b" (JInt 1) = None /\
  parse_path "a[-1]" = Some [PK "a"; PI (-1)] /\
  set_by_path (JObj []) "a[-1]" (JInt 1) = None.
Proof. repeat split; vm_compute; reflexivity. Qed.

(** Claim C6 (code bug).  Range and hedge texts are rejected for every
    currency field, 70-80k and about 5000 among them, and 2k commits 2000,
    $2,500 commits 2500; but a 401-digit amount makes [float] return
    infinity and [int] raise OverflowError, which escapes
    [deterministic_capture] (and [run]) instead of a commit or a no-match. *)
Theorem currency_capture_overflow_raises :
  (forall st f user path,
     f_type f = Some "currency" ->
     resolve_dynamic_path st (f_path f) = Some path ->
     (let text := remove_char "$"%char (remove_char ","%char (py_lower (py_strip user))) in
      range_search (chars text) || has_hedge text = true) ->
     deterministic_capture st f user = Some (false, st)) /\
  deterministic_capture fresh_state (mk_field "amount" "currency" []) "70-80k" =
    Some (false, fresh_state) /\
  deterministic_capture fresh_state (mk_field "amount" "currency" []) "about 5000" =
    Some (false, fresh_state) /\
  deterministic_capture fresh_state (mk_field "amount" "currency" []) "2k" =
    Some (true, JObj [(KS "application_id", JStr "A-1"); (KS "amount", JInt 2000)]) /\
  deterministic_capture fresh_state (mk_field "amount" "currency" []) "$2,500" =
    Some (true, JObj [(KS "application_id", JStr "A-1"); (KS "amount", JInt 2500)]) /\
  deterministic_capture fresh_state (mk_field "amount" "currency" [])
    (str ("1"%char :: repeat "0"%char 400)) = None.
Proof.
  split; [exact currency_rejects_range_or_hedge|].
  repeat split; vm_compute; reflexivity.
Qed.

(** Claim C7, counterexample.  1,000 and $5 are not digit sequences after
    trimming, yet the integer field accepts them (commas and dollar signs
    are removed first). *)
Lemma integer_capture_accepts_separators :
  py_isdigit (py_strip "1,000") = false /\
  deterministic_capture fresh_state (mk_field "dependents" "integer" []) "1,000" =
    Some (true, JObj [(KS "application_id", JStr "A-1"); (KS "dependents", JInt 1000)]) /\
  py_isdigit (py_strip "$5") = false /\
  deterministic_capture fresh_state (mk_field "dependents" "integer" []) "$5" =
    Some (true, JObj [(KS "application_id", JStr "A-1"); (KS "dependents", JInt 5)]).
Proof. repeat split; vm_compute; reflexivity. Qed.

Lemma integer_capture_digits_witness :
  resolve_dynamic_path fresh_state "dependents" = Some "dependents" /\
  deterministic_capture fresh_state (mk_field "dependents" "integer" []) " 42 " =
    Some (true, JObj [(KS "application_id", JStr "A-1"); (KS "dependents", JInt 42)]).
Proof.
  assert (Hr : resolve_dynamic_path fresh_state "dependents" = Some "dependents")
    by (vm_compute; reflexivity).
  split; [exact Hr|].
  rewrite (integer_capture_digits fresh_state (mk_field "dependents" "integer" []) " 42 "
             "dependents" eq_refl Hr).
  vm_compute. reflexivity.
Defined.

(** Claim C8, counterexample.  With the current year 2026, the date of
    birth 31/12/2008 is accepted, though on 19 October 2026 its holder is
    17 (2026 - 2008 - 1, the birthday not yet reached): only the years are
    compared ([2008 > 2026 - 18] is false). *)
Lemma date_of_birth_seventeen_accepted :
  strptime_dmy (JStr "31/12/2008") = Some (2008, 12, 31) /\
  validate_value 2026 (mk_field "dob" "date" []) (JStr "31/12/2008") = (true, None).
Proof. split; vm_compute; reflexivity. Qed.

Lemma date_validation_exact_witness :
  validate_value 2026 (mk_field "dob" "date" []) (JStr "01/01/1899") = (false, Some "invalid_age") /\
  validate_value 2026 (mk_field "dob" "date" []) (JStr "31/02/1990") = (false, Some "invalid_format").
Proof.
  split.
  - rewrite (date_validation_exact 2026 (mk_field "dob" "date" []) (JStr "01/01/1899")
               eq_refl ltac:(discriminate)).
    vm_compute. reflexivity.
  - rewrite (date_validation_exact 2026 (mk_field "dob" "date" []) (JStr "31/02/1990")
               eq_refl ltac:(discriminate)).
    vm_compute. reflexivity.
Defined.

Lemma extraction_post_safe_witness :
  let loads := fun _ : string =>
    Some (JList [JObj [(KS "operation", JStr "replace"); (KS "path", JStr "income");
                       (KS "value", JInt 5)];
                 JObj [(KS "operation", JStr "replace"); (KS "path", JStr "other")]]) in
  extraction_post loads "income" (Some (Some "ok [...] done")) =
    [JObj [(KS "operation", JStr "replace"); (KS "path", JStr "income"); (KS "value", JInt 5)]] /\
  exists d, JObj [(KS "operation", JStr "replace"); (KS "path", JStr "income");
                  (KS "value", JInt 5)] = JObj d /\
            dget d (KS "path") = Some (JStr "income").
Proof.
  intro loads.
  assert (H : extraction_post loads "income" (Some (Some "ok [...] done")) =
    [JObj [(KS "operation", JStr "replace"); (KS "path", JStr "income"); (KS "value", JInt 5)]])
    by (vm_compute; reflexivity).
  split; [exact H|].
  destruct (extraction_post_safe loads "income" (Some (Some "ok [...] done"))
              (JObj [(KS "operation", JStr "replace"); (KS "path", JStr "income");
                     (KS "value", JInt 5)])
              ltac:(rewrite H; left; reflexivity)) as ((d & Hd & Ho) & _).
  exists d. split; [exact Hd|]. destruct Ho as [Ho|Ho]; [|exact Ho].
  injection Hd as Hd. subst d. vm_compute in Ho. discriminate Ho.
Defined.

(* ================================================================== *)
(** * Further properties of the code *)

Lemma split_l_nonempty c l : split_l c l <> [].
Proof.
  induction l as [|x r IH]; simpl; [discriminate|].
  destruct (Ascii.eqb x c); [discriminate|]. destruct (split_l c r); discriminate.
Qed.

Lemma py_split_cons c s : exists k ks, py_split c s = k :: ks.
Proof.
  unfold py_split. pose proof (split_l_nonempty c (chars s)).
  destruct (split_l c (chars s)) as [|w ws]; [congruence|]. simpl. eauto.
Qed.

Lemma dset_same d k v : dget d k = Some v -> dset d k v = d.
Proof.
  induction d as [|[k0 v0] r IH]; simpl; [discriminate|].
  destruct (pkey_eqb k0 k); intro H; [inversion H; reflexivity | rewrite IH; auto].
Qed.

Lemma ap_get_parts_null ps : ApplyPatch.get_parts JNull ps = JNull.
Proof. destruct ps; reflexivity. Qed.

Lemma ap_get_by_path_parts root path part rest :
  py_split "."%char path = part :: rest -> path <> "" ->
  ApplyPatch.get_by_path root path = ApplyPatch.get_parts root (part :: rest).
Proof.
  intros Hs Hne. unfold ApplyPatch.get_by_path.
  destruct (String.eqb path "") eqn:E; [apply String.eqb_eq in E; contradiction|]. rewrite Hs; reflexivity.
Qed.

Lemma ap_set_rec_replace cur part rest v op r' :
  (op = "add" \/ op = "replace") ->
  ApplyPatch.set_rec cur part rest v op = Some (r', true) ->
  ApplyPatch.get_parts r' (part :: rest) = v.
Proof.
  intros Hop. revert cur part r'. induction rest as [|nxt rest' IH]; intros cur part r' H; simpl in H.
  - unfold ApplyPatch.set_target in H.
    assert (Hb : (String.eqb op "add" || String.eqb op "replace")%bool = true)
      by (destruct Hop; subst; reflexivity).
    rewrite Hb in H. destruct cur; try discriminate. inversion H; subst.
    simpl. rewrite dget_dset_same. reflexivity.
  - destruct cur as [| | | | |d]; try discriminate.
    destruct (dget d (KS part)) as [[| | | | |c0]|] eqn:Ed; try discriminate;
      [destruct (ApplyPatch.set_rec (JObj c0) nxt rest' v op) as [[c ok]|] eqn:Er
      |destruct (ApplyPatch.set_rec (JObj []) nxt rest' v op) as [[c ok]|] eqn:Er];
      try discriminate; inversion H; subst;
      simpl; rewrite dget_dset_same; exact (IH _ _ _ Er).
Qed.

Lemma ap_set_rec_append cur part rest v r' :
  ApplyPatch.set_rec cur part rest v "append" = Some (r', true) ->
  exists l, ApplyPatch.get_parts r' (part :: rest) = JList (l ++ [v]) /\
    (ApplyPatch.get_parts cur (part :: rest) = JList l \/
     (ApplyPatch.get_parts cur (part :: rest) = JNull /\ l = [])).
Proof.
  revert cur part r'. induction rest as [|nxt rest' IH]; intros cur part r' H; simpl in H.
  - unfold ApplyPatch.set_target in H. simpl in H.
    destruct cur as [| | | | |d]; try discriminate.
    destruct (dget d (KS part)) as [[| | | |l|]|] eqn:Ed; try discriminate; inversion H; subst.
    + exists l. simpl. rewrite dget_dset_same, Ed. auto.
    + exists []. simpl. rewrite dget_dset_same, Ed. auto.
  - destruct cur as [| | | | |d]; try discriminate.
    destruct (dget d (KS part)) as [[| | | | |c0]|] eqn:Ed; try discriminate.
    + destruct (ApplyPatch.set_rec (JObj c0) nxt rest' v "append") as [[c ok]|] eqn:Er; try discriminate.
      inversion H; subst. destruct (IH _ _ _ Er) as [l [H1 H2]]. exists l.
      change (ApplyPatch.get_parts (JObj (dset d (KS part) c)) (part :: nxt :: rest'))
        with (ApplyPatch.get_parts (match dget (dset d (KS part) c) (KS part) with Some v => v | None => JNull end) (nxt :: rest')).
      rewrite dget_dset_same. split; [exact H1|].
      change (ApplyPatch.get_parts (JObj d) (part :: nxt :: rest'))
        with (ApplyPatch.get_parts (match dget d (KS part) with Some v => v | None => JNull end) (nxt :: rest')).
      rewrite Ed. exact H2.
    + destruct (ApplyPatch.set_rec (JObj []) nxt rest' v "append") as [[c ok]|] eqn:Er; try discriminate.
      inversion H; subst. destruct (IH _ _ _ Er) as [l [H1 H2]]. exists l.
      change (ApplyPatch.get_parts (JObj (dset d (KS part) c)) (part :: nxt :: rest'))
        with (ApplyPatch.get_parts (match dget (dset d (KS part) c) (KS part) with Some v => v | None => JNull end) (nxt :: rest')).
      rewrite dget_dset_same. split; [exact H1|].
      change (ApplyPatch.get_parts (JObj d) (part :: nxt :: rest'))
        with (ApplyPatch.get_parts (match dget d (KS part) with Some v => v | None => JNull end) (nxt :: rest')).
      rewrite Ed.
      change (ApplyPatch.get_parts (JObj []) (nxt :: rest')) with (ApplyPatch.get_parts JNull rest') in H2.
      change (ApplyPatch.get_parts JNull (nxt :: rest')) with JNull.
      rewrite ap_get_parts_null in H2.
      destruct H2 as [H2|[_ H2]]; [discriminate|]. auto.
Qed.


Lemma ap_set_rec_fresh part rest v op :
  known_op op -> exists c, ApplyPatch.set_rec (JObj []) part rest v op = Some (c, true).
Proof.
  intro Hk. revert part. induction rest as [|nxt rest' IH]; intro part; simpl.
  - unfold ApplyPatch.set_target.
    destruct Hk as [<-|[<-|[<-|[<-|[]]]]]; simpl; eauto.
  - destruct (IH nxt) as [c Hc]. rewrite Hc. eauto.
Qed.

Lemma ap_set_rec_false cur part rest v op r' :
  known_op op -> ApplyPatch.set_rec cur part rest v op = Some (r', false) -> r' = cur.
Proof.
  intro Hk. revert cur part r'. induction rest as [|nxt rest' IH]; intros cur part r' H; simpl in H.
  - unfold ApplyPatch.set_target in H.
    destruct Hk as [<-|[<-|[<-|[<-|[]]]]]; simpl in H;
      destruct cur as [| | | | |d]; try discriminate; try (inversion H; reflexivity).
    destruct (dget d (KS part)) as [[| | | | |]|]; inversion H; reflexivity.
  - destruct cur as [| | | | |d]; try discriminate.
    destruct (dget d (KS part)) as [[| | | | |c0]|] eqn:Ed; try (inversion H; reflexivity).
    + destruct (ApplyPatch.set_rec (JObj c0) nxt rest' v op) as [[c ok]|] eqn:Er; try discriminate.
      inversion H; subst. rewrite (IH _ _ _ Er). rewrite dset_same by exact Ed. reflexivity.
    + destruct (ap_set_rec_fresh nxt rest' v op Hk) as [c Hc]. rewrite Hc in H. discriminate.
Qed.

Lemma ap_set_rec_unknown cur part rest v op :
  ~ known_op op ->
  ApplyPatch.set_rec cur part rest v op =
  option_map (fun r => (fst r, false)) (ApplyPatch.set_rec cur part rest v "none").
Proof.
  intro Hk. unfold known_op in Hk. simpl in Hk.
  revert cur part. induction rest as [|nxt rest' IH]; intros cur part; simpl.
  - unfold ApplyPatch.set_target.
    destruct (String.eqb op "add") eqn:E1; [apply String.eqb_eq in E1; subst; tauto|].
    destruct (String.eqb op "replace") eqn:E2; [apply String.eqb_eq in E2; subst; tauto|].
    destruct (String.eqb op "append") eqn:E3; [apply String.eqb_eq in E3; subst; tauto|].
    destruct (String.eqb op "none") eqn:E4; [apply String.eqb_eq in E4; subst; tauto|].
    reflexivity.
  - destruct cur as [| | | | |d]; try reflexivity.
    destruct (dget d (KS part)) as [[| | | | |c0]|]; try reflexivity; rewrite IH;
      [destruct (ApplyPatch.set_rec (JObj c0) nxt rest' v "none") as [[c ok]|]
      |destruct (ApplyPatch.set_rec (JObj []) nxt rest' v "none") as [[c ok]|]]; reflexivity.
Qed.

Lemma ap_set_rec_dict d part rest v op : ApplyPatch.set_rec (JObj d) part rest v op <> None.
Proof.
  revert d part. induction rest as [|nxt rest' IH]; intros d part; simpl.
  - unfold ApplyPatch.set_target.
    destruct (String.eqb op "add" || String.eqb op "replace")%bool; [discriminate|].
    destruct (String.eqb op "append"); [|destruct (String.eqb op "none"); discriminate].
    destruct (dget d (KS part)) as [[| | | | |]|]; discriminate.
  - destruct (dget d (KS part)) as [[| | | | |c0]|]; try discriminate;
      [pose proof (IH c0 nxt) as Hn; destruct (ApplyPatch.set_rec (JObj c0) nxt rest' v op) as [[c ok]|]
      |pose proof (IH [] nxt) as Hn; destruct (ApplyPatch.set_rec (JObj []) nxt rest' v op) as [[c ok]|]];
      congruence.
Qed.

Lemma nested_set_get d keys op v :
  keys <> [] -> is_str op "append" = false ->
  ApplyPatch.get_parts (JObj (nested_set d keys op v)) keys = v.
Proof.
  intros Hne Hop. revert d. induction keys as [|k rest IH]; intro d; [congruence|].
  destruct rest as [|k2 rest'].
  - simpl. rewrite Hop. simpl. rewrite dget_dset_same. reflexivity.
  - change (nested_set d (k :: k2 :: rest') op v)
      with (dset d (KS k) (JObj (nested_set (match dget d (KS k) with Some (JObj d) => d | _ => [] end) (k2 :: rest') op v))).
    simpl ApplyPatch.get_parts at 1. rewrite dget_dset_same. apply IH. discriminate.
Qed.

Lemma nested_get_nil keys : nested_get [] keys = None.
Proof. destruct keys as [|k [|k2 r]]; reflexivity. Qed.

Lemma nested_set_append d keys op v :
  keys <> [] -> is_str op "append" = true ->
  ApplyPatch.get_parts (JObj (nested_set d keys op v)) keys =
  JList (match nested_get d keys with Some (JList l) => l | _ => [] end ++ [v]).
Proof.
  intros Hne Hop. revert d. induction keys as [|k rest IH]; intro d; [congruence|].
  destruct rest as [|k2 rest'].
  - simpl. rewrite Hop.
    destruct (dget d (KS k)) as [[| | | |l|]|]; simpl; rewrite dget_dset_same; reflexivity.
  - change (nested_set d (k :: k2 :: rest') op v)
      with (dset d (KS k) (JObj (nested_set (match dget d (KS k) with Some (JObj d) => d | _ => [] end) (k2 :: rest') op v))).
    change (nested_get d (k :: k2 :: rest'))
      with (match dget d (KS k) with Some (JObj d0) => nested_get d0 (k2 :: rest') | _ => None end).
    simpl ApplyPatch.get_parts at 1. rewrite dget_dset_same.
    etransitivity; [apply IH; discriminate|].
    destruct (dget d (KS k)) as [[| | | | |d0]|]; rewrite ?nested_get_nil; reflexivity.
Qed.

Lemma nested_set_other d k rest k' rest' op v :
  k' <> k ->
  ApplyPatch.get_parts (JObj (nested_set d (k :: rest) op v)) (k' :: rest') =
  ApplyPatch.get_parts (JObj d) (k' :: rest').
Proof.
  intro Hne. destruct rest as [|k2 r].
  - simpl. destruct (is_str op "append");
      [destruct (dget d (KS k)) as [[| | | | |]|]|]; rewrite dget_dset_other by congruence; reflexivity.
  - change (nested_set d (k :: k2 :: r) op v)
      with (dset d (KS k) (JObj (nested_set (match dget d (KS k) with Some (JObj d) => d | _ => [] end) (k2 :: r) op v))).
    simpl. rewrite dget_dset_other by congruence. reflexivity.
Qed.

Lemma ap_set_by_path_ok root path v op r' ok :
  ApplyPatch.set_by_path root path v op = Some (r', ok) -> ok = true ->
  exists part rest, py_split "."%char path = part :: rest /\ path <> "" /\
    ApplyPatch.set_rec root part rest v op = Some (r', true).
Proof.
  unfold ApplyPatch.set_by_path. intros H Hok; subst ok.
  destruct (String.eqb path "") eqn:E; [discriminate|].
  destruct (py_split_cons "."%char path) as [part [rest Hs]]. rewrite Hs in H.
  exists part, rest. repeat split; auto. intro Hp; subst; discriminate.
Qed.

(** X1. [apply_patch.set_by_path] / [get_by_path] (lines 8-78): when [set_by_path] with operation add or replace returns True, reading the same dotted path from the mutated root gives the value just written. *)
Theorem ap_set_by_path_round_trip root path v op r' :
  op = "add" \/ op = "replace" ->
  ApplyPatch.set_by_path root path v op = Some (r', true) ->
  ApplyPatch.get_by_path r' path = v.
Proof.
  intros Hop H. destruct (ap_set_by_path_ok _ _ _ _ _ _ H eq_refl) as [part [rest [Hs [Hne Hr]]]].
  rewrite (ap_get_by_path_parts _ _ _ _ Hs Hne). exact (ap_set_rec_replace _ _ _ _ _ _ Hop Hr).
Qed.

(** X2. [apply_patch.set_by_path] (lines 29-78): when an append returns True, the value at the path is a list: the list that was there with the value appended, or the one-element list [[value]] when nothing was there. *)
Theorem ap_set_by_path_append root path v r' :
  ApplyPatch.set_by_path root path v "append" = Some (r', true) ->
  exists l, ApplyPatch.get_by_path r' path = JList (l ++ [v]) /\
    (ApplyPatch.get_by_path root path = JList l \/
     (ApplyPatch.get_by_path root path = JNull /\ l = [])).
Proof.
  intros H. destruct (ap_set_by_path_ok _ _ _ _ _ _ H eq_refl) as [part [rest [Hs [Hne Hr]]]].
  rewrite !(ap_get_by_path_parts _ _ _ _ Hs Hne). exact (ap_set_rec_append _ _ _ _ _ Hr).
Qed.

(** X3. [apply_patch.set_by_path] (lines 29-78): for the operations add, replace, append and none, a False result leaves the root exactly as it was (the walk only returns False at an existing non-dict, before creating anything). *)
Theorem ap_set_by_path_false_unchanged root path v op r' :
  In op ["add"; "replace"; "append"; "none"] ->
  ApplyPatch.set_by_path root path v op = Some (r', false) -> r' = root.
Proof.
  intros Hk H. unfold ApplyPatch.set_by_path in H.
  destruct (String.eqb path ""); [inversion H; reflexivity|].
  destruct (py_split "."%char path) as [|part rest]; [inversion H; reflexivity|].
  exact (ap_set_rec_false _ _ _ _ _ _ Hk H).
Qed.

(** X4. [apply_patch.set_by_path] (lines 29-78): an unknown operation returns False, but mutates the root exactly as the operation none does: the missing intermediate dicts of the path are still created. *)
Theorem ap_set_by_path_unknown_op root path v op :
  ~ In op ["add"; "replace"; "append"; "none"] ->
  ApplyPatch.set_by_path root path v op =
  option_map (fun r => (fst r, false)) (ApplyPatch.set_by_path root path v "none").
Proof.
  intros Hk. unfold ApplyPatch.set_by_path.
  destruct (String.eqb path ""); [reflexivity|].
  destruct (py_split "."%char path) as [|part rest]; [reflexivity|].
  exact (ap_set_rec_unknown _ _ _ _ _ Hk).
Qed.

(** X5. [apply_patch.set_by_path] (lines 29-78): on a dict root it never raises; it always returns a bool. *)
Theorem ap_set_by_path_dict_never_raises d path v op :
  ApplyPatch.set_by_path (JObj d) path v op <> None.
Proof.
  unfold ApplyPatch.set_by_path.
  destruct (String.eqb path ""); [discriminate|].
  destruct (py_split "."%char path) as [|part rest]; [discriminate|]. apply ap_set_rec_dict.
Qed.

(** X6. [apply_patch.set_nested_value] (lines 80-96): for any operation other than append and a non-empty path, [get_by_path] on the result at the same path gives the value written; missing or non-dict intermediates are replaced by dicts. *)
Theorem set_nested_value_round_trip d path v op d' :
  is_str op "append" = false -> path <> "" ->
  set_nested_value d path v op = Some d' -> ApplyPatch.get_by_path d' path = v.
Proof.
  intros Hop Hne H. destruct d as [| | | | |d]; try discriminate. inversion H; subst.
  destruct (py_split_cons "."%char path) as [k [ks Hs]].
  rewrite (ap_get_by_path_parts _ _ _ _ Hs Hne), Hs.
  apply nested_set_get; [discriminate | exact Hop].
Qed.

(** X7. [apply_patch.set_nested_value] (lines 80-96): with operation append and a non-empty path, the value at the path becomes a list ending in the value: the list that the walk over dicts finds at the final key, extended by the value, or [[value]] when the walk finds no list there (a missing final key, a non-list value, or an intermediate that is missing or not a dict). *)
Theorem set_nested_value_append d path v op d' :
  is_str op "append" = true -> path <> "" ->
  set_nested_value (JObj d) path v op = Some d' ->
  ApplyPatch.get_by_path d' path =
  JList (match nested_get d (py_split "."%char path) with Some (JList l) => l | _ => [] end ++ [v]).
Proof.
  intros Hop Hne H. injection H as <-.
  destruct (py_split_cons "."%char path) as [k [ks Hs]].
  rewrite (ap_get_by_path_parts _ _ _ _ Hs Hne), Hs.
  apply nested_set_append; [discriminate | exact Hop].
Qed.

(** X8. [apply_patch.set_nested_value] (lines 80-96): a path whose first segment differs from that of the written path reads the same value before and after. *)
Theorem set_nested_value_frame d path q v op d' k ks k' ks' :
  py_split "."%char path = k :: ks -> py_split "."%char q = k' :: ks' -> k' <> k -> q <> "" ->
  set_nested_value d path v op = Some d' ->
  ApplyPatch.get_by_path d' q = ApplyPatch.get_by_path d q.
Proof.
  intros Hp Hq Hne Hqne H. destruct d as [| | | | |d]; try discriminate. inversion H; subst.
  rewrite !(ap_get_by_path_parts _ _ _ _ Hq Hqne), Hp. apply nested_set_other; exact Hne.
Qed.


Lemma parse_token_shape t p :
  parse_token t = Some p -> exists k, p = [PK k] \/ exists z, p = [PK k; PI z].
Proof.
  unfold parse_token. destruct (contains t "[" && endswith t "]").
  - destruct (py_split "["%char (str (removelast (chars t)))) as [|name [|idx [|x r]]]; try discriminate.
    destruct (py_int idx) as [z|]; [|discriminate]. intro H; inversion H; eauto.
  - intro H; inversion H; eauto.
Qed.

Lemma pi_after_pk_app c q :
  (exists k, c = [PK k] \/ exists z, c = [PK k; PI z]) -> pi_after_pk q -> pi_after_pk (c ++ q).
Proof.
  intros [k Hc] Hq i z H.
  destruct Hc as [->|[z' ->]]; simpl in H |- *.
  - destruct i as [|i]; [discriminate|]. simpl in H.
    destruct (Hq _ _ H) as [Hi [k' Hk']]. split; [discriminate|].
    destruct i as [|i']; [congruence|]. exists k'. exact Hk'.
  - destruct i as [|[|i]]; simpl in H; [discriminate| |].
    + split; [discriminate|]. exists k; reflexivity.
    + destruct (Hq _ _ H) as [Hi [k' Hk']]. split; [discriminate|].
      destruct i as [|i']; [congruence|]. exists k'. exact Hk'.
Qed.

Lemma parse_tokens_shape ts ps : parse_tokens ts = Some ps -> pi_after_pk ps.
Proof.
  revert ps. induction ts as [|t r IH]; simpl; intros ps H.
  - inversion H; subst. intros [|i] z Hn; discriminate.
  - destruct (parse_token t) as [c|] eqn:Ec; [|discriminate].
    destruct (parse_tokens r) as [q|] eqn:Eq; [|discriminate]. inversion H; subst.
    apply pi_after_pk_app; [exact (parse_token_shape _ _ Ec) | exact (IH _ eq_refl)].
Qed.

Lemma parse_tokens_no_pi_pi ts ps :
  parse_tokens ts = Some ps ->
  no_pi_pi ps = true /\ match ps with PI _ :: _ => False | _ => True end.
Proof.
  revert ps. induction ts as [|t r IH]; simpl; intros ps H.
  - injection H as <-. split; [reflexivity | exact I].
  - destruct (parse_token t) as [c|] eqn:Ec; [|discriminate].
    destruct (parse_tokens r) as [q|] eqn:Eq; [|discriminate]. injection H as <-.
    destruct (IH q eq_refl) as [Hq Hh].
    destruct (parse_token_shape _ _ Ec) as [k [->|[z ->]]]; simpl;
      (split; [|exact I]); destruct q as [|[k'|z'] q']; simpl in *; auto; contradiction.
Qed.

Lemma py_index_pad_nil {A} (x : A) i :
  py_index (List.length (pad [] i x)) i = if 0 <=? i then Some (Z.to_nat i) else None.
Proof.
  unfold pad, py_index. simpl List.length. rewrite repeat_length.
  change (Z.of_nat 0) with 0. rewrite Z.sub_0_r.
  destruct (Z.leb_spec 0 i).
  - rewrite Z2Nat.id by lia.
    destruct (Z.ltb_spec i 0); [lia|]. destruct (Z.leb_spec 0 i); [|lia].
    destruct (Z.ltb_spec i (i + 1)); [reflexivity | lia].
  - replace (Z.to_nat (i + 1)) with 0%nat by lia. simpl Z.of_nat.
    destruct (Z.ltb_spec i 0); [|lia]. destruct (Z.leb_spec 0 (i + 0)); [lia | reflexivity].
Qed.

Lemma set_parts_fresh_iff p rest v :
  no_pi_pi (p :: rest) = true ->
  (set_parts (fresh_for p) p rest v <> None <-> forallb index_nonneg (p :: rest) = true).
Proof.
  revert p. induction rest as [|nxt rest' IH]; intros p Hs.
  - destruct p as [k|i].
    + simpl. split; [reflexivity | discriminate].
    + simpl set_parts. unfold set_last. cbv zeta. rewrite py_index_pad_nil.
      simpl forallb. rewrite andb_true_r. simpl index_nonneg.
      destruct (0 <=? i); simpl; split; congruence.
  - assert (Hs' : no_pi_pi (nxt :: rest') = true)
      by (simpl in Hs; apply andb_prop in Hs; exact (proj2 Hs)).
    specialize (IH nxt Hs').
    destruct p as [k|i].
    + simpl set_parts. cbv zeta. simpl dget.
      replace (match nxt with PI _ => JList [] | PK _ => JObj [] end) with (fresh_for nxt)
        by (destruct nxt; reflexivity).
      change (forallb index_nonneg (PK k :: nxt :: rest')) with (forallb index_nonneg (nxt :: rest')).
      rewrite <- IH. destruct (set_parts (fresh_for nxt) nxt rest' v); simpl; split; congruence.
    + simpl set_parts. cbv zeta. rewrite py_index_pad_nil.
      change (forallb index_nonneg (PI i :: nxt :: rest'))
        with ((0 <=? i) && forallb index_nonneg (nxt :: rest')).
      destruct (Z.leb_spec 0 i) as [Hi|Hi]; [|simpl; split; congruence].
      simpl andb. cbv beta iota.
      unfold pad at 1. simpl app. rewrite nth_error_repeat by lia.
      destruct nxt as [k'|z']; [|simpl in Hs; discriminate].
      change (JObj []) with (fresh_for (PK k')).
      rewrite <- IH. destruct (set_parts (fresh_for (PK k')) (PK k') rest' v); simpl; split; congruence.
Qed.

(** X9. [_parse_path] (lines 224-233): a parsed path is never empty, starts with a key, and every integer index comes right after a key (never first, never two indices in a row). *)
Theorem parse_path_shape path ps :
  parse_path path = Some ps ->
  ps <> [] /\
  forall i z, nth_error ps i = Some (PI z) -> i <> 0%nat /\ exists k, nth_error ps (pred i) = Some (PK k).
Proof.
  unfold parse_path. intro H. split; [|exact (parse_tokens_shape _ _ H)].
  destruct (py_split_cons "."%char path) as [t [ts Hs]]. rewrite Hs in H. simpl in H.
  destruct (parse_token t) as [c|] eqn:Ec; [|discriminate].
  destruct (parse_tokens ts); [|discriminate]. inversion H; subst.
  destruct (parse_token_shape _ _ Ec) as [k [->|[z ->]]]; discriminate.
Qed.

(** X10. [v5_runner.set_by_path] / [get_by_path] (lines 236-273): writing a path leaves unchanged the value read at any path whose first key is different. *)
Theorem v5_set_by_path_frame st P Q v st' k rk k' rk' :
  parse_path P = Some (PK k :: rk) -> parse_path Q = Some (PK k' :: rk') -> k' <> k ->
  set_by_path st P v = Some st' -> get_by_path st' Q = get_by_path st Q.
Proof.
  intros HP HQ Hne H. unfold set_by_path in H. rewrite HP in H.
  destruct (set_parts_key _ _ _ _ _ H) as (d & x & -> & ->).
  unfold get_by_path. rewrite HQ. simpl. rewrite dget_dset_other by congruence. reflexivity.
Qed.

Lemma dset_dset_same d k x y : dset (dset d k x) k y = dset d k y.
Proof.
  induction d as [|[k0 v0] r IH]; simpl.
  - rewrite pkey_eqb_refl. reflexivity.
  - destruct (pkey_eqb k0 k) eqn:E; simpl; rewrite E; [reflexivity | rewrite IH; reflexivity].
Qed.

Lemma put_rt_put_rt s r1 r2 : put_rt (put_rt s r1) r2 = put_rt s r2.
Proof. destruct s; simpl; try reflexivity. rewrite dset_dset_same. reflexivity. Qed.

(** X11. [current_field] (lines 181-193): an integer active_index i selects [meta_fields[i]] with Python indexing: for 0 <= i the field at i (None past the end), for -len <= i < 0 the field at len + i, and below -len an IndexError. *)
Theorem current_field_python_index mf st r i :
  get_rt st = Some r -> dget r (KS "active_index") = Some (JInt i) ->
  current_field mf st =
  if i <? 0 then
    if - Z.of_nat (List.length mf) <=? i
    then Some (put_rt st r, nth_error mf (Z.to_nat (Z.of_nat (List.length mf) + i)))
    else None
  else Some (put_rt st r, nth_error mf (Z.to_nat i)).
Proof.
  intros Hr Hi. unfold current_field, get_active_index. rewrite Hr, Hi. simpl.
  destruct (i <? 0) eqn:Hneg.
  - apply Z.ltb_lt in Hneg.
    replace (Z.of_nat (List.length mf) <=? i) with false by (symmetry; apply Z.leb_gt; lia).
    unfold py_index. rewrite (proj2 (Z.ltb_lt i 0) Hneg).
    destruct (- Z.of_nat (List.length mf) <=? i) eqn:Hlo.
    + apply Z.leb_le in Hlo.
      replace (0 <=? i + Z.of_nat (List.length mf)) with true by (symmetry; apply Z.leb_le; lia).
      replace (i + Z.of_nat (List.length mf) <? Z.of_nat (List.length mf)) with true
        by (symmetry; apply Z.ltb_lt; lia). simpl.
      rewrite Z.add_comm.
      destruct (nth_error mf (Z.to_nat (Z.of_nat (List.length mf) + i))) eqn:En; [reflexivity|].
      apply nth_error_None in En. lia.
    + apply Z.leb_gt in Hlo.
      replace (0 <=? i + Z.of_nat (List.length mf)) with false by (symmetry; apply Z.leb_gt; lia).
      reflexivity.
  - apply Z.ltb_ge in Hneg.
    destruct (Z.of_nat (List.length mf) <=? i) eqn:Hhi.
    + apply Z.leb_le in Hhi. f_equal. f_equal. symmetry. apply nth_error_None. lia.
    + apply Z.leb_gt in Hhi. rewrite py_index_nonneg by lia.
      destruct (nth_error mf (Z.to_nat i)) eqn:En; [reflexivity|].
      apply nth_error_None in En. lia.
Qed.

(** X12. [advance_field] then [current_field] (lines 181-197): from an active_index i >= 0, advancing stores i + 1 in the runtime dict and the current field becomes the field at i + 1, or None when i + 1 is past the end. *)
Theorem advance_then_current_field mf st r i :
  get_rt st = Some r -> dget r (KS "active_index") = Some (JInt i) -> 0 <= i ->
  exists st', advance_field st = Some st' /\
    get_rt st' = Some (dset r (KS "active_index") (JInt (i + 1))) /\
    current_field mf st' = Some (st', nth_error mf (Z.to_nat (i + 1))).
Proof.
  intros Hr Hi Hnn. unfold advance_field, get_active_index. rewrite Hr, Hi. simpl.
  unfold set_active_index. rewrite (get_rt_put_rt _ _ _ Hr). simpl.
  eexists. split; [reflexivity|].
  assert (Hr' : get_rt (put_rt (put_rt st r) (dset r (KS "active_index") (JInt (i + 1))))
                = Some (dset r (KS "active_index") (JInt (i + 1))))
    by (apply (get_rt_put_rt _ r); exact (get_rt_put_rt _ _ _ Hr)).
  split; [exact Hr'|].
  unfold current_field, get_active_index. rewrite Hr', dget_dset_same. simpl.
  rewrite put_rt_put_rt, put_rt_put_rt.
  destruct (Z.of_nat (List.length mf) <=? i + 1) eqn:Hhi.
  + apply Z.leb_le in Hhi. f_equal. f_equal. symmetry. apply nth_error_None. lia.
  + apply Z.leb_gt in Hhi. rewrite py_index_nonneg by lia.
    destruct (nth_error mf (Z.to_nat (i + 1))) eqn:En; [reflexivity|].
    apply nth_error_None in En. lia.
Qed.

Ltac kdiscr := let E := fresh in intro E; inversion E.

(** X13. The no branch of the repeat decision (lines 667-673): for the answer no or n, a completed turn removes awaiting_repeat_for and repeat_prompt from the runtime dict, moves active_index from i to i + 1, keeps every other runtime key and every value outside the runtime, and asks for a prompt. *)
Theorem repeat_no_advances wf st user r i res :
  get_rt st = Some r -> NoDup (map fst r) ->
  dget r (KS "active_index") = Some (JInt i) ->
  In (py_strip (py_lower user)) ["no"; "n"] ->
  repeat_decision wf st user = Some res ->
  exists st1 r1, res = TNext st1 true /\ get_rt st1 = Some r1 /\
    dget r1 (KS "awaiting_repeat_for") = None /\ dget r1 (KS "repeat_prompt") = None /\
    dget r1 (KS "active_index") = Some (JInt (i + 1)) /\
    (forall k, k <> KS "awaiting_repeat_for" -> k <> KS "repeat_prompt" ->
               k <> KS "active_index" -> dget r1 k = dget r k) /\
    (forall path, outside_runtime path = true -> get_by_path st1 path = get_by_path st path).
Proof.
  intros Hr Hnd Hi Hans H. unfold repeat_decision in H. rewrite Hr in H.
  assert (Hy : (String.eqb (py_strip (py_lower user)) "yes" || String.eqb (py_strip (py_lower user)) "y")%bool = false)
    by (destruct Hans as [<-|[<-|[]]]; reflexivity).
  assert (Hn : (String.eqb (py_strip (py_lower user)) "no" || String.eqb (py_strip (py_lower user)) "n")%bool = true)
    by (destruct Hans as [<-|[<-|[]]]; reflexivity).
  rewrite Hy, Hn in H.
  destruct (dpop r (KS "awaiting_repeat_for")) as [r4|] eqn:E4; [|discriminate].
  destruct (dpop r4 (KS "repeat_prompt")) as [r5|] eqn:E5; [|discriminate].
  assert (Hnd4 := dpop_nodup _ _ _ Hnd E4).
  assert (Hr5 : get_rt (put_rt st r5) = Some r5) by exact (get_rt_put_rt _ _ _ Hr).
  assert (Hi5 : dget r5 (KS "active_index") = Some (JInt i)).
  { rewrite (dpop_dget_other _ _ _ _ E5) by kdiscr.
    rewrite (dpop_dget_other _ _ _ _ E4) by kdiscr. exact Hi. }
  unfold advance_field, get_active_index in H. rewrite Hr5, Hi5 in H. simpl in H.
  unfold set_active_index in H. rewrite (get_rt_put_rt _ _ _ Hr5) in H. simpl in H.
  destruct (save_state _); [|discriminate]. inversion H; subst res.
  eexists; exists (dset r5 (KS "active_index") (JInt (i + 1))).
  split; [reflexivity|]. split; [apply (get_rt_put_rt _ r5); exact (get_rt_put_rt _ _ _ Hr5)|].
  split; [rewrite dget_dset_other by kdiscr;
          rewrite (dpop_dget_other _ _ _ _ E5) by kdiscr; exact (dpop_dget_same _ _ _ Hnd E4)|].
  split; [rewrite dget_dset_other by kdiscr; exact (dpop_dget_same _ _ _ Hnd4 E5)|].
  split; [apply dget_dset_same|].
  split.
  - intros k H1 H2 H3. rewrite dget_dset_other by exact H3.
    rewrite (dpop_dget_other _ _ _ _ E5) by exact H2. exact (dpop_dget_other _ _ _ _ E4 H1).
  - intros path Ho. rewrite !get_by_path_put_rt by exact Ho. reflexivity.
Qed.

Lemma subscript_put_sub ref p c c' r :
  subscript ref p = Some c -> put_sub ref p c' = Some r -> subscript r p = Some c'.
Proof.
  destruct ref as [| | | |l|d], p as [k|i]; simpl; try discriminate; intros Hs Hp.
  - destruct (py_index (List.length l) i) as [n|] eqn:En; [|discriminate]. inversion Hp; subst.
    simpl. rewrite list_upd_length, En. apply nth_error_list_upd_same. exact (py_index_lt _ _ _ En).
  - inversion Hp; subst. apply dget_dset_same.
  - inversion Hp; subst. apply dget_dset_same.
Qed.

Lemma modify_parts_get ref ps g x r :
  get_parts ref ps = Some x -> modify_parts ref ps g = Some r -> get_parts r ps = Some (g x).
Proof.
  revert ref r. induction ps as [|p rest IH]; simpl; intros ref r Hg Hm.
  - inversion Hg; inversion Hm; subst. reflexivity.
  - destruct (subscript ref p) as [c|] eqn:Ec; [|discriminate].
    destruct (modify_parts c rest g) as [c'|] eqn:Em; [|discriminate].
    rewrite (subscript_put_sub _ _ _ _ _ Ec Hm). exact (IH _ _ Hg Em).
Qed.

Lemma modify_at_get st ap g l st1 :
  get_by_path st ap = JList l -> modify_at st ap g = Some st1 -> get_by_path st1 ap = g (JList l).
Proof.
  unfold get_by_path, modify_at. intros Hg Hm.
  destruct (parse_path ap) as [ps|]; [|discriminate].
  destruct (get_parts st ps) as [x|] eqn:Ex; [|discriminate]. subst x.
  rewrite (modify_parts_get _ _ _ _ _ Ex Hm). reflexivity.
Qed.

Lemma modify_at_rt st ap g st1 :
  outside_runtime ap = true -> modify_at st ap g = Some st1 -> get_rt st1 = get_rt st.
Proof.
  intros Ho Hm. destruct (outside_runtime_head ap Ho) as (k & rest & Hp & Hk).
  unfold modify_at in Hm. rewrite Hp in Hm. simpl in Hm.
  destruct st as [| | | | |d]; try discriminate. simpl in Hm.
  destruct (dget d (KS k)); [|discriminate].
  destruct (modify_parts _ rest g); [|discriminate]. inversion Hm; subst. simpl.
  rewrite dget_dset_other by exact Hk. reflexivity.
Qed.

Lemma add_object_tail wf ap st1 r n st' :
  get_rt st1 = Some r -> outside_runtime ap = true ->
  (st2 <- set_array_index st1 ap (Z.of_nat n - 1) ;;
   st3 <- match find_section_start (meta_fields wf) ap with
          | Some i => set_active_index st2 (JInt (Z.of_nat i))
          | None => Some st2
          end ;; Some (Some st3)) = Some (Some st') ->
  exists r' ai, get_rt st' = Some r' /\ get_by_path st' ap = get_by_path st1 ap /\
    dget r' (KS "array_index") = Some (JObj ai) /\
    dget ai (KS ap) = Some (JInt (Z.of_nat n - 1)) /\
    dget r' (KS "active_index") =
      match find_section_start (meta_fields wf) ap with
      | Some i => Some (JInt (Z.of_nat i))
      | None => dget r (KS "active_index")
      end /\
    (forall k, k <> KS "array_index" -> k <> KS "active_index" -> dget r' k = dget r k).
Proof.
  intros Hr Ho H. unfold set_array_index in H. rewrite Hr in H.
  destruct (array_index_of r) as [ai|] eqn:Eai; [|discriminate].
  set (r2 := dset r (KS "array_index") (JObj (dset ai (KS ap) (JInt (Z.of_nat n - 1))))) in H.
  assert (Hr2 : get_rt (put_rt st1 r2) = Some r2) by exact (get_rt_put_rt _ _ _ Hr).
  destruct (find_section_start (meta_fields wf) ap) as [i|].
  - unfold set_active_index in H. rewrite Hr2 in H. injection H as <-.
    exists (dset r2 (KS "active_index") (JInt (Z.of_nat i))), (dset ai (KS ap) (JInt (Z.of_nat n - 1))).
    split; [exact (get_rt_put_rt _ _ _ Hr2)|].
    split; [rewrite !get_by_path_put_rt by exact Ho; reflexivity|].
    split; [rewrite dget_dset_other by kdiscr; apply dget_dset_same|].
    split; [apply dget_dset_same|].
    split; [apply dget_dset_same|].
    intros k H1 H2. rewrite dget_dset_other by exact H2. apply dget_dset_other; exact H1.
  - injection H as <-.
    exists r2, (dset ai (KS ap) (JInt (Z.of_nat n - 1))).
    split; [exact Hr2|].
    split; [rewrite !get_by_path_put_rt by exact Ho; reflexivity|].
    split; [apply dget_dset_same|].
    split; [apply dget_dset_same|].
    split; [apply dget_dset_other; kdiscr|].
    intros k H1 H2. apply dget_dset_other; exact H1.
Qed.

(** X15. An add_object patch (lines 704-726) on an array path outside the runtime: the value at the path becomes the old list (or [[]] when it was not a list) with one [{}] appended; array_index maps the path to the new item's index; active_index becomes the start of the section when there is one and is kept otherwise; other runtime keys are kept. *)
Theorem add_object_appends_item wf st f d rest ap r st' :
  dget d (KS "operation") = Some (JStr "add_object") ->
  dget d (KS "target_array") = Some (JStr ap) ->
  outside_runtime ap = true -> get_rt st = Some r ->
  handle_patches wf st f (JObj d :: rest) = Some (Some st') ->
  exists r' ai, get_rt st' = Some r' /\
    get_by_path st' ap =
      JList ((match get_by_path st ap with JList l => l | _ => [] end) ++ [JObj []]) /\
    dget r' (KS "array_index") = Some (JObj ai) /\
    dget ai (KS ap) =
      Some (JInt (Z.of_nat (List.length (match get_by_path st ap with JList l => l | _ => [] end)))) /\
    dget r' (KS "active_index") =
      match find_section_start (meta_fields wf) ap with
      | Some i => Some (JInt (Z.of_nat i))
      | None => dget r (KS "active_index")
      end /\
    (forall k, k <> KS "array_index" -> k <> KS "active_index" -> dget r' k = dget r k).
Proof.
  intros Hop Hta Ho Hr H. simpl in H. rewrite Hop, Hta in H. simpl in H.
  destruct (get_by_path st ap) as [| | | |l|] eqn:Eg;
    try (destruct (set_by_path st ap (JList [JObj []])) as [st1|] eqn:Es; [|discriminate];
         destruct (add_object_tail _ _ _ _ _ _ (eq_trans (set_by_path_rt _ _ _ _ Ho Es) Hr) Ho H)
           as (r' & ai & H1 & H2 & H3 & H4 & H5 & H6);
         exists r', ai; rewrite H2, (set_by_path_get _ _ _ _ Es); repeat split; assumption).
  destruct (modify_at st ap (fun _ => JList (l ++ [JObj []]))) as [st1|] eqn:Em; [|discriminate].
  destruct (add_object_tail _ _ _ _ _ _ (eq_trans (modify_at_rt _ _ _ _ Ho Em) Hr) Ho H)
    as (r' & ai & H1 & H2 & H3 & H4 & H5 & H6).
  exists r', ai. rewrite H2, (modify_at_get _ _ _ _ _ Eg Em).
  replace (Z.of_nat (S (List.length l)) - 1) with (Z.of_nat (List.length l)) in H4 by lia.
  repeat split; assumption.
Qed.

Lemma chars_str l : chars (str l) = l.
Proof. apply list_ascii_of_string_of_list_ascii. Qed.

Lemma drop_ws_head l c r : drop_ws l = c :: r -> is_ws c = false.
Proof.
  induction l as [|x l IH]; simpl; [discriminate|].
  destruct (is_ws x) eqn:E; [exact IH|]. intro H; inversion H; subst; exact E.
Qed.

Lemma drop_ws_snoc x c : is_ws c = false -> exists y, drop_ws (x ++ [c]) = y ++ [c].
Proof.
  intro Hc. induction x as [|a x IH]; simpl.
  - rewrite Hc. exists []. reflexivity.
  - destruct (is_ws a); [exact IH|]. exists (a :: x). reflexivity.
Qed.

Lemma strip_nonempty s c r : chars s = c :: r -> is_ws c = false -> py_strip s <> "".
Proof.
  intros Hs Hc. unfold py_strip. rewrite Hs. simpl. rewrite Hc. simpl.
  destruct (drop_ws_snoc (rev r) c Hc) as [y Hy]. rewrite Hy, rev_app_distr. simpl. discriminate.
Qed.

Lemma strip_head s : py_strip s <> "" -> exists c r, chars (py_strip s) = c :: r /\ is_ws c = false.
Proof.
  intro Hne. unfold py_strip in *. rewrite chars_str.
  destruct (drop_ws (chars s)) as [|c r] eqn:Ed; [simpl in Hne; congruence|].
  pose proof (drop_ws_head _ _ _ Ed) as Hc. simpl.
  destruct (drop_ws_snoc (rev r) c Hc) as [y Hy]. rewrite Hy, rev_app_distr. simpl. eauto.
Qed.

Lemma strip_strip_nonempty s : py_strip s <> "" -> py_strip (py_strip s) <> "".
Proof. intro H. destruct (strip_head s H) as (c & r & Hc & Hw). exact (strip_nonempty _ _ _ Hc Hw). Qed.

Lemma is_1_9_not_ws c : is_1_9 c = true -> is_ws c = false.
Proof.
  unfold is_1_9, is_ws. intro H. apply andb_prop in H as [H1 H2].
  apply Z.leb_le in H1. apply Z.leb_le in H2.
  replace (cd c <=? 13) with false by (symmetry; apply Z.leb_gt; lia).
  replace (cd c <=? 32) with false by (symmetry; apply Z.leb_gt; lia).
  rewrite !andb_false_r. reflexivity.
Qed.

Lemma day_re_head c w : day_re (c :: w) = true -> is_ws c = false.
Proof.
  destruct w as [|c2 [|c3 w]]; simpl; [apply is_1_9_not_ws| |discriminate].
  destruct (Ascii.eqb c "0"%char) eqn:E0; [apply Ascii.eqb_eq in E0; subst; reflexivity|].
  destruct (Ascii.eqb c "1"%char) eqn:E1; [apply Ascii.eqb_eq in E1; subst; reflexivity|].
  destruct (Ascii.eqb c "2"%char) eqn:E2; [apply Ascii.eqb_eq in E2; subst; reflexivity|].
  destruct (Ascii.eqb c "3"%char) eqn:E3; [apply Ascii.eqb_eq in E3; subst; reflexivity|].
  simpl. discriminate.
Qed.

Lemma date_fullmatch_head t : date_fullmatch t = true -> exists c r, chars t = c :: r /\ is_ws c = false.
Proof.
  unfold date_fullmatch. destruct (chars t) as [|x r] eqn:Et; simpl; [discriminate|].
  destruct (Ascii.eqb x "/"%char);
    [destruct (split_l "/"%char r) as [|? [|? [|? ?]]]; simpl; intro H; discriminate H|].
  destruct (split_l "/"%char r) as [|w ws]; [simpl; intro H; discriminate H|].
  destruct ws as [|m [|y [|z zs]]]; try discriminate.
  intro H. apply andb_prop in H as [H _]. apply andb_prop in H as [H _]. apply andb_prop in H as [H _].
  exists x, r. split; [reflexivity | exact (day_re_head _ _ H)].
Qed.

Lemma set_by_path_runtime_of st p v st' :
  outside_runtime p = true -> set_by_path st p v = Some st' -> runtime_of st' = runtime_of st.
Proof.
  intros Ho H. destruct (outside_runtime_head p Ho) as (k & rest & Hp & Hk).
  unfold set_by_path in H. rewrite Hp in H.
  destruct (set_parts_key _ _ _ _ _ H) as (d & x & -> & ->). simpl.
  rewrite dget_dset_other by exact Hk. reflexivity.
Qed.

Lemma filled_after_set st path p v st' :
  resolve_dynamic_path st path = Some p -> outside_runtime p = true ->
  set_by_path st p v = Some st' ->
  match v with JNull => false | JStr s => negb (String.eqb (py_strip s) "") | _ => true end = true ->
  field_filled st' path = Some true.
Proof.
  intros Hres Ho Hs Hv. unfold field_filled.
  assert (Hres' : resolve_dynamic_path st' path = Some p).
  { unfold resolve_dynamic_path in *. rewrite (set_by_path_runtime_of _ _ _ _ Ho Hs). exact Hres. }
  rewrite Hres'. simpl. rewrite (set_by_path_get _ _ _ _ Hs).
  destruct v; try discriminate; try reflexivity. simpl in Hv. rewrite Hv. reflexivity.
Qed.

Lemma negb_eqb_strip s : py_strip s <> "" -> negb (String.eqb (py_strip s) "") = true.
Proof. intro H. destruct (String.eqb_spec (py_strip s) ""); [contradiction | reflexivity]. Qed.

(** X16. [deterministic_capture] then [field_filled] (lines 301-402): for an integer, currency, string or date field whose resolved path is outside the runtime, a successful capture makes [field_filled] true for the field. *)
Theorem capture_fills_field st f user st' p :
  In (f_type f) [Some "integer"; Some "currency"; Some "string"; Some "date"] ->
  resolve_dynamic_path st (f_path f) = Some p -> outside_runtime p = true ->
  deterministic_capture st f user = Some (true, st') ->
  field_filled st' (f_path f) = Some true.
Proof.
  intros Hty Hres Ho H. unfold deterministic_capture in H. rewrite Hres in H.
  unfold type_is in H.
  destruct Hty as [Ht|[Ht|[Ht|[Ht|[]]]]]; rewrite <- Ht in H; simpl in H;
    repeat match type of H with
           | context [match ?x with _ => _ end] => destruct x eqn:?; try discriminate H
           end;
    injection H as <-.
  all: eapply filled_after_set; eauto; try reflexivity.
  - apply negb_eqb_strip. destruct (String.eqb_spec (py_strip user) ""); [discriminate|]. exact (strip_strip_nonempty _ n).
  - apply negb_eqb_strip.
    match goal with Hd : date_fullmatch ?t = true |- _ =>
      destruct (date_fullmatch_head _ Hd) as (c & r & Hc & Hw); exact (strip_nonempty _ _ _ Hc Hw) end.
Qed.

Lemma day_re_strptime_day d : day_re d = true -> strptime_day d = true.
Proof.
  destruct d as [|c [|c2 [|c3 r]]]; simpl; try discriminate; [auto|].
  destruct (Ascii.eqb c "0"%char), (Ascii.eqb c "1"%char), (Ascii.eqb c "2"%char),
    (Ascii.eqb c "3"%char), (Ascii.eqb c " "%char), (is_1_9 c2), (is_digit c2),
    (Ascii.eqb c2 "0"%char), (Ascii.eqb c2 "1"%char); simpl; auto.
Qed.

Lemma skip_ws_head c w : is_ws c = false -> skip is_ws (c :: w) = c :: w.
Proof. intro H. simpl. rewrite H. reflexivity. Qed.

(** X17. [deterministic_capture] and [validate_value] (lines 394-400, 557-587): a text that matches the capture's date regex passes [strptime] with format %d/%m/%Y exactly when the day exists in that month and the year is at least 1, and then it is parsed as that day, month and year. *)
Theorem date_capture_strptime t d m y :
  date_fullmatch t = true -> split_l "/"%char (chars t) = [d; m; y] ->
  strptime_dmy (JStr t) =
  if (1 <=? digits_value y) && (digits_value d <=? days_in_month (digits_value y) (digits_value m))
  then Some (digits_value y, digits_value m, digits_value d) else None.
Proof.
  intros Hf Hs. unfold date_fullmatch in Hf. rewrite Hs in Hf.
  apply andb_prop in Hf as [Hf Hy]. apply andb_prop in Hf as [Hf Hl]. apply andb_prop in Hf as [Hd Hm].
  unfold strptime_dmy. rewrite Hs, (day_re_strptime_day _ Hd). unfold strptime_month. rewrite Hm, Hl, Hy. simpl.
  destruct d as [|c w]; [discriminate|]. rewrite (skip_ws_head _ _ (day_re_head _ _ Hd)). reflexivity.
Qed.

Lemma is_prefix_app_skipn a b l : is_prefix (a ++ b) l = true -> is_prefix b (skipn (List.length a) l) = true.
Proof.
  revert l. induction a as [|x a IH]; intros l H; [exact H|].
  destruct l as [|y l]; simpl in H; [discriminate|]. apply andb_prop in H as [_ H]. exact (IH _ H).
Qed.

Lemma contains_l_skipn b n l : is_prefix b (skipn n l) = true -> contains_l b l = true.
Proof.
  revert l. induction n as [|n IH]; intros l H; simpl in H.
  - destruct l; simpl; rewrite H; reflexivity.
  - destruct l as [|x l].
    + destruct b; [destruct n; reflexivity | discriminate].
    + simpl. rewrite (IH _ H). apply orb_true_r.
Qed.

Lemma contains_l_app_r a b l : contains_l (a ++ b) l = true -> contains_l b l = true.
Proof.
  induction l as [|x l IH]; intro H; simpl in H.
  - rewrite orb_false_r in H. apply is_prefix_app_skipn in H. exact (contains_l_skipn _ _ _ H).
  - apply orb_prop in H as [H|H].
    + apply is_prefix_app_skipn in H. exact (contains_l_skipn _ _ _ H).
    + simpl. rewrite (IH H). apply orb_true_r.
Qed.

Lemma replace_l_nochange fuel old new l : contains_l old l = false -> replace_l fuel old new l = l.
Proof.
  revert l. induction fuel as [|f IH]; intros l H; [reflexivity|]. simpl.
  destruct l as [|x r]; [reflexivity|].
  simpl in H. apply orb_false_elim in H as [H1 H2]. rewrite H1. f_equal. exact (IH _ H2).
Qed.

Lemma chars_append s1 s2 : chars (String.append s1 s2) = chars s1 ++ chars s2.
Proof. induction s1 as [|c s1 IH]; simpl; [reflexivity|]. unfold chars in *. simpl. rewrite IH. reflexivity. Qed.

Lemma py_replace_nochange s arr new :
  contains s "[0]" = false -> py_replace s (String.append arr "[0]") new = s.
Proof.
  intro H. unfold py_replace. rewrite chars_append.
  destruct (chars arr ++ chars "[0]") eqn:E; [destruct (chars arr); discriminate|].
  rewrite <- E, replace_l_nochange.
  - apply string_of_list_ascii_of_string.
  - destruct (contains_l (chars arr ++ chars "[0]") (chars s)) eqn:Ec; [|reflexivity].
    apply contains_l_app_r in Ec. unfold contains in H. rewrite Ec in H. discriminate.
Qed.

(** X18. [resolve_dynamic_path] (lines 275-282): a path that does not contain [0] is returned unchanged, whatever array_index holds. *)
Theorem resolve_dynamic_path_no_zero_index st path p :
  contains path "[0]" = false -> resolve_dynamic_path st path = Some p -> p = path.
Proof.
  intros Hc H. unfold resolve_dynamic_path in H.
  destruct (runtime_of st) as [rt|]; [|discriminate].
  destruct rt as [| | | | |rd]; try discriminate.
  destruct (match dget rd (KS "array_index") with Some i => i | None => JObj [] end) as [| | | | |ix];
    try discriminate.
  injection H as <-. induction ix as [|[k idx] ix IH]; [reflexivity|].
  simpl. rewrite py_replace_nochange by exact Hc. exact IH.
Qed.

(** X19. The correction of the previous enum answer (lines 628-641): for any integer active_index i below the number of fields, negative ones included (Python indexes those from the end), when last_field names an enum field outside the runtime and the input normalizes to a non-empty allowed value, the turn writes that value at last_field, sets active_index to i - 1, keeps the other runtime keys, and asks for a prompt. *)
Theorem enum_correction_steps_back json_loads now_year wf st np user resp r i lf prev w res :
  get_rt st = Some r -> dget r (KS "active_index") = Some (JInt i) ->
  i < Z.of_nat (List.length (meta_fields wf)) ->
  dget r (KS "last_field") = Some (JStr lf) -> lf <> "" -> outside_runtime lf = true ->
  find (fun g => is_str (JStr lf) (f_path g)) (meta_fields wf) = Some prev ->
  f_type prev = Some "enum" ->
  existsb (String.eqb (py_lower user)) ["exit"; "quit"] = false ->
  normalize_enum user (f_values prev) = Some w -> w <> "" ->
  turn json_loads now_year wf st np user resp = Some res ->
  exists st' r', res = TNext st' true /\ get_by_path st' lf = JStr w /\ get_rt st' = Some r' /\
    dget r' (KS "active_index") = Some (JInt (i - 1)) /\
    (forall k, k <> KS "active_index" -> dget r' k = dget r k).
Proof.
  intros Hr Hi Hlen Hlf Hlfne Ho Hfind Hty Hexit Hnorm Hw H.
  unfold turn, current_field, get_active_index in H. rewrite Hr, Hi, Hexit in H. simpl in H.
  replace (Z.of_nat (List.length (meta_fields wf)) <=? i) with false in H
    by (symmetry; apply Z.leb_gt; lia).
  destruct (py_index (List.length (meta_fields wf)) i) as [n|]; [|discriminate].
  destruct (nth_error (meta_fields wf) n) as [f|]; [|discriminate].
  simpl in H.
  destruct (if np then render_question_ok (put_rt st r) f else Some tt); [|discriminate].
  rewrite (get_rt_put_rt _ _ _ Hr) in H.
  unfold rt_field in H. rewrite Hlf in H. simpl in H.
  destruct (String.eqb_spec lf ""); [contradiction|]. simpl in H.
  simpl in Hfind. rewrite Hfind in H.
  assert (He : type_is prev "enum" = true) by (unfold type_is; rewrite Hty; reflexivity).
  rewrite He, Hnorm in H.
  destruct (String.eqb_spec w ""); [contradiction|]. simpl in H.
  destruct (set_by_path (put_rt st r) lf (JStr w)) as [st1|] eqn:Es; [|discriminate].
  rewrite (set_by_path_rt _ _ _ _ Ho Es), (get_rt_put_rt _ _ _ Hr) in H.
  rewrite Hi in H. simpl in H.
  destruct (save_state _); [|discriminate]. injection H as <-.
  eexists; exists (dset r (KS "active_index") (JInt (i - 1))).
  split; [reflexivity|].
  split; [rewrite get_by_path_put_rt by exact Ho; exact (set_by_path_get _ _ _ _ Es)|].
  split; [apply (get_rt_put_rt _ r); rewrite (set_by_path_rt _ _ _ _ Ho Es); exact (get_rt_put_rt _ _ _ Hr)|].
  split; [apply dget_dset_same|].
  intros k Hk. apply dget_dset_other; exact Hk.
Qed.

Lemma fold_sections_untouched (f : field) mf wf idx (sm : list (string * list string)) s np :
  forallb (fun '(_, fields) => negb (existsb (String.eqb (f_path f)) fields)) sm = true ->
  fold_left
    (fun acc '(array_path, fields) =>
       sn <- acc ;;
       let '(s, np) := sn in
       if existsb (String.eqb (f_path f)) fields then
         last <- is_last_field_of_section mf idx fields ;;
         if last then
           rr <- get_rt s ;;
           let s1 := put_rt s (dset (dset rr (KS "awaiting_repeat_for") (JStr array_path))
                                    (KS "repeat_prompt")
                                    (workflow_stage_repeat_prompt wf array_path)) in
           u <- save_state s1 ;;
           Some (s1, false)
         else Some (s, np)
       else Some (s, np))
    sm (Some (s, np)) = Some (s, np).
Proof.
  induction sm as [|[ap fields] sm IH]; simpl; intro H; [reflexivity|].
  apply andb_prop in H as [H1 H2]. apply negb_true_iff in H1. rewrite H1. exact (IH H2).
Qed.

(** X20. STEP 3 of the turn (lines 747-770): a filled field whose value validates, and which belongs to no repeating section, moves active_index from i to i + 1, records the field path as last_field, keeps the other runtime keys and every value outside the runtime, and asks for a prompt. *)
Theorem valid_answer_advances now_year wf st f r i p res :
  get_rt st = Some r -> dget r (KS "active_index") = Some (JInt i) ->
  resolve_dynamic_path st (f_path f) = Some p ->
  field_filled st (f_path f) = Some true ->
  fst (validate_value now_year f (get_by_path st p)) = true ->
  forallb (fun '(_, fields) => negb (existsb (String.eqb (f_path f)) fields)) (section_map wf) = true ->
  after_capture now_year wf st f = Some res ->
  exists st' r', res = TNext st' true /\ get_rt st' = Some r' /\
    dget r' (KS "active_index") = Some (JInt (i + 1)) /\
    dget r' (KS "last_field") = Some (JStr (f_path f)) /\
    (forall k, k <> KS "active_index" -> k <> KS "last_field" -> dget r' k = dget r k) /\
    (forall q, outside_runtime q = true -> get_by_path st' q = get_by_path st q).
Proof.
  intros Hr Hi Hres Hfill Hval Hsec H. unfold after_capture in H. rewrite Hfill, Hres in H. simpl in H.
  destruct (validate_value now_year f (get_by_path st p)) as [ok reason]. simpl in Hval. subst ok.
  rewrite Hr in H. unfold get_active_index in H. rewrite (get_rt_put_rt _ _ _ Hr), Hi in H.
  rewrite fold_sections_untouched in H by exact Hsec.
  unfold advance_field, get_active_index in H.
  assert (Hr2 : get_rt (put_rt (put_rt st r) r) = Some r)
    by (apply (get_rt_put_rt _ r); exact (get_rt_put_rt _ _ _ Hr)).
  rewrite Hr2, Hi in H. simpl in H. unfold set_active_index in H.
  rewrite (get_rt_put_rt _ _ _ Hr2) in H. simpl in H.
  rewrite (get_rt_put_rt _ _ _ (get_rt_put_rt _ _ _ Hr2)) in H.
  destruct (save_state _); [|discriminate]. injection H as <-.
  eexists; exists (dset (dset r (KS "active_index") (JInt (i + 1))) (KS "last_field") (JStr (f_path f))).
  split; [reflexivity|].
  split; [apply (get_rt_put_rt _ _ _ (get_rt_put_rt _ _ _ (get_rt_put_rt _ _ _ Hr2)))|].
  split; [rewrite dget_dset_other by kdiscr; apply dget_dset_same|].
  split; [apply dget_dset_same|].
  split.
  - intros k H1 H2. rewrite dget_dset_other by exact H2. apply dget_dset_other; exact H1.
  - intros q Ho. rewrite !get_by_path_put_rt by exact Ho. reflexivity.
Qed.

(** X21. STEP 3 of the turn (lines 773-777): a filled field whose value fails validation has the value at its resolved path reset to None, the runtime dict unchanged (so the cursor stays), and no new prompt. *)
Theorem invalid_answer_cleared now_year wf st f p res :
  resolve_dynamic_path st (f_path f) = Some p -> outside_runtime p = true ->
  field_filled st (f_path f) = Some true ->
  fst (validate_value now_year f (get_by_path st p)) = false ->
  after_capture now_year wf st f = Some res ->
  exists st', res = TNext st' false /\ get_by_path st' p = JNull /\ get_rt st' = get_rt st.
Proof.
  intros Hres Ho Hfill Hval H. unfold after_capture in H. rewrite Hfill, Hres in H. simpl in H.
  destruct (validate_value now_year f (get_by_path st p)) as [ok reason]. simpl in Hval. subst ok.
  destruct (set_by_path st p JNull) as [st1|] eqn:Es; [|discriminate].
  destruct (f_question f); [|discriminate]. injection H as <-.
  exists st1. split; [reflexivity|]. split; [exact (set_by_path_get _ _ _ _ Es)|].
  exact (set_by_path_rt _ _ _ _ Ho Es).
Qed.


Lemma replace_l_underscore fuel l :
  (List.length l < fuel)%nat -> replace_l fuel ["_"%char] [" "%char] l = map u2s l.
Proof.
  revert l. induction fuel as [|f IH]; intros l Hl; [lia|].
  destruct l as [|x r]; [reflexivity|].
  change (replace_l (S f) ["_"%char] [" "%char] (x :: r))
    with (if is_prefix ["_"%char] (x :: r)
          then [" "%char] ++ replace_l f ["_"%char] [" "%char] (skipn 1 (x :: r))
          else x :: replace_l f ["_"%char] [" "%char] r).
  change (map u2s (x :: r)) with (u2s x :: map u2s r).
  assert (Hp : is_prefix ["_"%char] (x :: r) = Ascii.eqb x "_"%char).
  { change (is_prefix ["_"%char] (x :: r)) with (Ascii.eqb "_"%char x && is_prefix [] r).
    rewrite andb_true_r. apply Ascii.eqb_sym. }
  rewrite Hp. unfold u2s at 1. simpl in Hl.
  destruct (Ascii.eqb x "_"%char); cbn [app skipn]; f_equal; apply IH; lia.
Qed.

Lemma underscores_to_spaces_chars a : chars (underscores_to_spaces a) = map u2s (chars a).
Proof.
  unfold underscores_to_spaces, py_replace.
  change (chars "_") with ["_"%char]. change (chars " ") with [" "%char]. cbv beta iota.
  rewrite chars_str. apply replace_l_underscore. lia.
Qed.


Lemma enum_char_u2s c : enum_char c = true ->
  az_or_space (u2s c) = true /\ lower_char (u2s c) = u2s c /\ (is_ws (u2s c) = Ascii.eqb c "_"%char).
Proof.
  unfold enum_char, u2s, az_or_space, lower_char, is_ws. intro H.
  destruct (Ascii.eqb c "_"%char) eqn:E; [split; [reflexivity|]; split; reflexivity|].
  rewrite orb_false_r in H. apply andb_prop in H as [H1 H2]. apply Z.leb_le in H1. apply Z.leb_le in H2.
  split; [rewrite (proj2 (Z.leb_le 97 (cd c)) H1), (proj2 (Z.leb_le (cd c) 122) H2); reflexivity|].
  split.
  - replace (cd c <=? 90) with false by (symmetry; apply Z.leb_gt; lia). rewrite andb_false_r. reflexivity.
  - replace (cd c <=? 13) with false by (symmetry; apply Z.leb_gt; lia).
    replace (cd c <=? 32) with false by (symmetry; apply Z.leb_gt; lia).
    rewrite !andb_false_r. reflexivity.
Qed.

Lemma drop_ws_nonws c r : is_ws c = false -> drop_ws (c :: r) = c :: r.
Proof. intro H. simpl. rewrite H. reflexivity. Qed.

Lemma strip_fixed l c r c' r' :
  l = c :: r -> is_ws c = false -> rev l = c' :: r' -> is_ws c' = false -> py_strip (str l) = str l.
Proof.
  intros Hl Hc Hr Hc'. unfold py_strip. rewrite chars_str, Hl, drop_ws_nonws by exact Hc.
  rewrite <- Hl, Hr, drop_ws_nonws by exact Hc'. rewrite <- Hr, rev_involutive. reflexivity.
Qed.

(** X22. [normalize_enum] (lines 314-339): the display form of an allowed value made of lowercase letters and underscores (underscores shown as spaces, not at either end) is normalized to an allowed value with that same display form. *)
Theorem normalize_enum_spaced_form a allowed :
  In a allowed -> forallb enum_char (chars a) = true ->
  hd "_"%char (chars a) <> "_"%char -> last (chars a) "_"%char <> "_"%char ->
  exists v, normalize_enum (underscores_to_spaces a) allowed = Some v /\
    underscores_to_spaces v = underscores_to_spaces a.
Proof.
  intros Hin Hall Hhd Hlast.
  set (m := map u2s (chars a)).
  assert (Hm : underscores_to_spaces a = str m)
    by (rewrite <- (string_of_list_ascii_of_string (underscores_to_spaces a)); fold (chars (underscores_to_spaces a));
        rewrite underscores_to_spaces_chars; reflexivity).
  assert (Hlow : py_lower (str m) = str m).
  { unfold py_lower. rewrite chars_str. f_equal. unfold m. rewrite map_map.
    apply map_ext_in. intros c Hc. apply forallb_forall with (x := c) in Hall; [|exact Hc].
    exact (proj1 (proj2 (enum_char_u2s c Hall))). }
  assert (Hstrip : py_strip (str m) = str m).
  { destruct (chars a) as [|c r] eqn:Ea; [simpl in Hhd; congruence|].
    destruct (rev (c :: r)) as [|c' r'] eqn:Er; [apply (f_equal (@List.length ascii)) in Er; simpl in Er; rewrite length_app in Er; simpl in Er; lia|].
    assert (Hc : enum_char c = true) by (simpl in Hall; apply andb_prop in Hall; tauto).
    assert (Hc' : enum_char c' = true).
    { apply forallb_forall with (x := c') in Hall; [exact Hall|]. apply in_rev. rewrite Er. left; reflexivity. }
    assert (Hlc' : last (c :: r) "_"%char = c').
    { rewrite <- (rev_involutive (c :: r)), Er. simpl. rewrite last_last. reflexivity. }
    apply (strip_fixed m (u2s c) (map u2s r) (u2s c') (map u2s r')).
    - unfold m. reflexivity.
    - rewrite (proj2 (proj2 (enum_char_u2s c Hc))). simpl in Hhd.
      destruct (Ascii.eqb_spec c "_"%char); [contradiction | reflexivity].
    - unfold m. rewrite <- map_rev, Er. reflexivity.
    - rewrite (proj2 (proj2 (enum_char_u2s c' Hc'))). rewrite Hlc' in Hlast.
      destruct (Ascii.eqb_spec c' "_"%char); [contradiction | reflexivity]. }
  assert (Hfilt : filter az_or_space m = m).
  { apply forallb_filter_id. unfold m. apply forallb_forall. intros x Hx.
    apply in_map_iff in Hx as [c [<- Hc]]. apply forallb_forall with (x := c) in Hall; [|exact Hc].
    exact (proj1 (enum_char_u2s c Hall)). }
  unfold normalize_enum. rewrite Hm, Hlow, Hstrip, chars_str, Hfilt.
  destruct (find (fun v => String.eqb (str m) (underscores_to_spaces v)) allowed) as [v|] eqn:Ef.
  - exists v. split; [reflexivity|]. apply find_some in Ef as [_ Ef].
    apply String.eqb_eq in Ef. symmetry. exact Ef.
  - exfalso. apply find_none with (x := a) in Ef; [|exact Hin].
    rewrite Hm, String.eqb_refl in Ef. discriminate.
Qed.

Lemma find_section_start_go mf ap i :
  match (fix go (fs : list field) (i : nat) :=
           match fs with
           | [] => None
           | f :: r => if startswith (f_path f) (String.append ap "[0]") then Some i
                       else go r (S i)
           end) mf i with
  | Some n => (i <= n)%nat /\ exists f, nth_error mf (n - i) = Some f /\
      startswith (f_path f) (String.append ap "[0]") = true /\
      forall j g, (j < n - i)%nat -> nth_error mf j = Some g ->
                  startswith (f_path g) (String.append ap "[0]") = false
  | None => forall g, In g mf -> startswith (f_path g) (String.append ap "[0]") = false
  end.
Proof.
  revert i. induction mf as [|f r IH]; intro i; [intros g []|].
  destruct (startswith (f_path f) (String.append ap "[0]")) eqn:Ef.
  - split; [lia|]. exists f. rewrite Nat.sub_diag. split; [reflexivity|]. split; [exact Ef|].
    intros j g Hj. lia.
  - specialize (IH (S i)).
    destruct ((fix go (fs : list field) (i : nat) :=
           match fs with
           | [] => None
           | f :: r => if startswith (f_path f) (String.append ap "[0]") then Some i
                       else go r (S i)
           end) r (S i)) as [n|].
    + destruct IH as [Hle [g [Hg [Hs Hbefore]]]]. split; [lia|]. exists g.
      replace (n - i)%nat with (S (n - S i)) by lia. split; [exact Hg|]. split; [exact Hs|].
      intros [|j] g' Hj Hn; simpl in Hn; [inversion Hn; subst; exact Ef|].
      apply (Hbefore j); [lia | exact Hn].
    + intros g [<-|Hg]; [exact Ef | exact (IH g Hg)].
Qed.

(** X23. [find_section_start] (lines 165-169): the result is the index of the first field whose path starts with the array path followed by [0], and None when no field path does. *)
Theorem find_section_start_first mf ap :
  match find_section_start mf ap with
  | Some n => exists f, nth_error mf n = Some f /\
      startswith (f_path f) (String.append ap "[0]") = true /\
      forall j g, (j < n)%nat -> nth_error mf j = Some g ->
                  startswith (f_path g) (String.append ap "[0]") = false
  | None => forall g, In g mf -> startswith (f_path g) (String.append ap "[0]") = false
  end.
Proof.
  pose proof (find_section_start_go mf ap 0) as H. unfold find_section_start.
  destruct (_ mf 0%nat) as [n|]; [|exact H].
  destruct H as [_ H]. rewrite Nat.sub_0_r in H. exact H.
Qed.

(** X25. [v5_runner.set_by_path] / [get_by_path] (lines 224-273): whenever [set_by_path] returns, [get_by_path] at the same path on the new state gives the value written. *)
Theorem set_by_path_round_trip D P v D' :
  set_by_path D P v = Some D' -> get_by_path D' P = v.
Proof. apply set_by_path_get. Qed.

(** X26. [v5_runner.set_by_path] (lines 224-273): on a dict whose first path key is missing, [set_by_path] returns exactly when every integer index of the path is non-negative: missing containers are created as [[]] before an index and [{}] before a key, and lists are padded up to the index; a negative index on a padded-to-empty list raises IndexError. *)
Theorem set_by_path_fresh_branch d P v k rest :
  parse_path P = Some (PK k :: rest) -> dget d (KS k) = None ->
  (set_by_path (JObj d) P v <> None <-> forallb index_nonneg rest = true).
Proof.
  intros Hp Hk. destruct (parse_tokens_no_pi_pi _ _ Hp) as [Hs _].
  unfold set_by_path. rewrite Hp. cbv iota beta.
  destruct rest as [|nxt rest'].
  - simpl. split; [reflexivity | discriminate].
  - assert (Hs' : no_pi_pi (nxt :: rest') = true)
      by (simpl in Hs; exact Hs).
    simpl set_parts. cbv zeta. rewrite Hk.
    replace (match nxt with PI _ => JList [] | PK _ => JObj [] end) with (fresh_for nxt)
      by (destruct nxt; reflexivity).
    rewrite <- (set_parts_fresh_iff nxt rest' v Hs').
    destruct (set_parts (fresh_for nxt) nxt rest' v); simpl; split; congruence.
Qed.

Lemma ap_set_by_path_round_trip_witness :
  ApplyPatch.set_by_path (JObj []) "a.b" (JInt 1) "add" =
    Some (JObj [(KS "a", JObj [(KS "b", JInt 1)])], true) /\
  ApplyPatch.get_by_path (JObj [(KS "a", JObj [(KS "b", JInt 1)])]) "a.b" = JInt 1.
Proof.
  assert (H : ApplyPatch.set_by_path (JObj []) "a.b" (JInt 1) "add" =
              Some (JObj [(KS "a", JObj [(KS "b", JInt 1)])], true)) by (vm_compute; reflexivity).
  split; [exact H|].
  exact (ap_set_by_path_round_trip (JObj []) "a.b" (JInt 1) "add" _ (or_introl eq_refl) H).
Defined.

Lemma ap_set_by_path_append_witness :
  exists l, ApplyPatch.get_by_path (JObj [(KS "a", JObj [(KS "l", JList [JInt 1; JInt 2])])]) "a.l" =
              JList (l ++ [JInt 2]) /\
    (ApplyPatch.get_by_path (JObj [(KS "a", JObj [(KS "l", JList [JInt 1])])]) "a.l" = JList l \/
     (ApplyPatch.get_by_path (JObj [(KS "a", JObj [(KS "l", JList [JInt 1])])]) "a.l" = JNull /\ l = [])).
Proof.
  apply (ap_set_by_path_append (JObj [(KS "a", JObj [(KS "l", JList [JInt 1])])]) "a.l" (JInt 2)).
  vm_compute. reflexivity.
Defined.

Lemma ap_set_by_path_false_unchanged_witness :
  ApplyPatch.set_by_path (JObj [(KS "a", JInt 5)]) "a.b" (JInt 1) "replace" =
    Some (JObj [(KS "a", JInt 5)], false) /\
  JObj [(KS "a", JInt 5)] = JObj [(KS "a", JInt 5)].
Proof.
  assert (H : ApplyPatch.set_by_path (JObj [(KS "a", JInt 5)]) "a.b" (JInt 1) "replace" =
              Some (JObj [(KS "a", JInt 5)], false)) by (vm_compute; reflexivity).
  split; [exact H|].
  exact (ap_set_by_path_false_unchanged _ _ _ "replace" _ ltac:(simpl; tauto) H).
Defined.

Lemma ap_set_by_path_unknown_op_witness :
  ApplyPatch.set_by_path (JObj []) "x.y" (JInt 1) "delete" = Some (JObj [(KS "x", JObj [])], false).
Proof.
  rewrite (ap_set_by_path_unknown_op (JObj []) "x.y" (JInt 1) "delete"
             ltac:(simpl; intuition discriminate)).
  vm_compute. reflexivity.
Defined.

Lemma set_nested_value_round_trip_witness :
  set_nested_value (JObj [(KS "a", JInt 3)]) "a.b" (JInt 1) (JStr "replace") =
    Some (JObj [(KS "a", JObj [(KS "b", JInt 1)])]) /\
  ApplyPatch.get_by_path (JObj [(KS "a", JObj [(KS "b", JInt 1)])]) "a.b" = JInt 1.
Proof.
  assert (H : set_nested_value (JObj [(KS "a", JInt 3)]) "a.b" (JInt 1) (JStr "replace") =
              Some (JObj [(KS "a", JObj [(KS "b", JInt 1)])])) by (vm_compute; reflexivity).
  split; [exact H|].
  exact (set_nested_value_round_trip _ "a.b" (JInt 1) (JStr "replace") _ eq_refl
           ltac:(discriminate) H).
Defined.

Lemma set_nested_value_append_witness :
  ApplyPatch.get_by_path (JObj [(KS "xs", JList [JInt 1; JInt 2])]) "xs" = JList [JInt 1; JInt 2] /\
  ApplyPatch.get_by_path (JObj [(KS "a", JObj [(KS "0", JList [JInt 2])])]) "a.0" = JList [JInt 2].
Proof.
  split.
  - apply (set_nested_value_append [(KS "xs", JList [JInt 1])] "xs" (JInt 2) (JStr "append"));
      [reflexivity | discriminate | vm_compute; reflexivity].
  - apply (set_nested_value_append [(KS "a", JList [JList [JInt 1]])] "a.0" (JInt 2) (JStr "append"));
      [reflexivity | discriminate | vm_compute; reflexivity].
Defined.

Lemma set_nested_value_frame_witness :
  ApplyPatch.get_by_path (JObj [(KS "c", JInt 7); (KS "a", JObj [(KS "b", JInt 1)])]) "c" =
  ApplyPatch.get_by_path (JObj [(KS "c", JInt 7)]) "c".
Proof.
  apply (set_nested_value_frame (JObj [(KS "c", JInt 7)]) "a.b" "c" (JInt 1) (JStr "add") _
           "a" ["b"] "c" []); [vm_compute; reflexivity | vm_compute; reflexivity | discriminate
           | discriminate | vm_compute; reflexivity].
Defined.

Lemma parse_path_shape_witness :
  [PK "m"; PI 0; PK "x"] <> [] /\
  forall i z, nth_error [PK "m"; PI 0; PK "x"] i = Some (PI z) ->
    i <> 0%nat /\ exists k, nth_error [PK "m"; PI 0; PK "x"] (pred i) = Some (PK k).
Proof. apply (parse_path_shape "m[0].x"). vm_compute. reflexivity. Defined.

Lemma v5_set_by_path_frame_witness :
  get_by_path (JObj [(KS "c", JInt 7); (KS "a", JObj [(KS "b", JInt 1)])]) "c" =
  get_by_path (JObj [(KS "c", JInt 7)]) "c".
Proof.
  apply (v5_set_by_path_frame (JObj [(KS "c", JInt 7)]) "a.b" "c" (JInt 1) _ "a" [PK "b"] "c" []);
    [vm_compute; reflexivity | vm_compute; reflexivity | discriminate | vm_compute; reflexivity].
Defined.

Lemma current_field_python_index_witness :
  current_field (meta_fields wf_income_primary)
    (JObj [(KS "workflow_runtime", JObj [(KS "active_index", JInt (-1))])]) =
  Some (JObj [(KS "workflow_runtime", JObj [(KS "active_index", JInt (-1))])],
        Some (mk_field "dependents" "integer" [])).
Proof.
  rewrite (current_field_python_index (meta_fields wf_income_primary)
             (JObj [(KS "workflow_runtime", JObj [(KS "active_index", JInt (-1))])])
             [(KS "active_index", JInt (-1))] (-1) eq_refl eq_refl).
  vm_compute. reflexivity.
Defined.

Lemma advance_then_current_field_witness :
  exists st', advance_field primary_amount = Some st' /\
    get_rt st' = Some (dset [(KS "active_index", JInt 1);
                             (KS "last_field", JStr "income_sources[0].amount")]
                            (KS "active_index") (JInt 2)) /\
    current_field (meta_fields wf_income_primary) st' =
      Some (st', Some (mk_field "dependents" "integer" [])).
Proof.
  exact (advance_then_current_field (meta_fields wf_income_primary) primary_amount
           [(KS "active_index", JInt 1); (KS "last_field", JStr "income_sources[0].amount")] 1
           eq_refl eq_refl ltac:(lia)).
Defined.

Lemma repeat_no_advances_witness :
  repeat_decision wf_income income_awaiting "no" = Some (TNext income_declined true) /\
  exists r1, get_rt income_declined = Some r1 /\
    dget r1 (KS "awaiting_repeat_for") = None /\ dget r1 (KS "repeat_prompt") = None /\
    dget r1 (KS "active_index") = Some (JInt 2).
Proof.
  assert (H : repeat_decision wf_income income_awaiting "no" = Some (TNext income_declined true))
    by (vm_compute; reflexivity).
  split; [exact H|].
  destruct (repeat_no_advances wf_income income_awaiting "no"
              [(KS "active_index", JInt 1);
               (KS "awaiting_repeat_for", JStr "income_sources");
               (KS "repeat_prompt", JStr "Another income source?");
               (KS "last_field", JStr "income_sources[0].amount")] 1 _
              eq_refl
              ltac:(vm_compute; repeat constructor; simpl; intuition discriminate)
              eq_refl ltac:(vm_compute; left; reflexivity) H)
    as (st1 & r1 & Hres & Hr1 & Ha & Hp & Hi & _).
  injection Hres as <-. exists r1. auto.
Defined.

Lemma add_object_appends_item_witness :
  exists st', handle_patches wf_income income_awaiting (mk_field "income_sources[0].amount" "currency" [])
                [JObj add_object_patch] = Some (Some st') /\
    get_by_path st' "income_sources" = JList [JObj [(KS "amount", JInt 3000)]; JObj []].
Proof.
  assert (H : exists st', handle_patches wf_income income_awaiting
                (mk_field "income_sources[0].amount" "currency" []) [JObj add_object_patch] = Some (Some st'))
    by (eexists; vm_compute; reflexivity).
  destruct H as [st' H]. exists st'. split; [exact H|].
  destruct (add_object_appends_item wf_income income_awaiting (mk_field "income_sources[0].amount" "currency" [])
              add_object_patch [] "income_sources"
              [(KS "active_index", JInt 1);
               (KS "awaiting_repeat_for", JStr "income_sources");
               (KS "repeat_prompt", JStr "Another income source?");
               (KS "last_field", JStr "income_sources[0].amount")] st'
              eq_refl eq_refl eq_refl eq_refl H) as (r' & ai & _ & Hg & _).
  rewrite Hg. reflexivity.
Defined.

Lemma capture_fills_field_witness :
  deterministic_capture fresh_state (mk_field "dependents" "integer" []) "2" =
    Some (true, JObj [(KS "application_id", JStr "A-1"); (KS "dependents", JInt 2)]) /\
  field_filled (JObj [(KS "application_id", JStr "A-1"); (KS "dependents", JInt 2)]) "dependents" =
    Some true.
Proof.
  assert (H : deterministic_capture fresh_state (mk_field "dependents" "integer" []) "2" =
    Some (true, JObj [(KS "application_id", JStr "A-1"); (KS "dependents", JInt 2)]))
    by (vm_compute; reflexivity).
  split; [exact H|].
  exact (capture_fills_field fresh_state (mk_field "dependents" "integer" []) "2" _ "dependents"
           ltac:(simpl; tauto) eq_refl eq_refl H).
Defined.

Lemma date_capture_strptime_witness :
  strptime_dmy (JStr "29/02/2023") = None /\ strptime_dmy (JStr "29/02/2024") = Some (2024, 2, 29).
Proof.
  split.
  - rewrite (date_capture_strptime "29/02/2023" ["2"%char; "9"%char] ["0"%char; "2"%char]
               ["2"%char; "0"%char; "2"%char; "3"%char] eq_refl eq_refl). vm_compute. reflexivity.
  - rewrite (date_capture_strptime "29/02/2024" ["2"%char; "9"%char] ["0"%char; "2"%char]
               ["2"%char; "0"%char; "2"%char; "4"%char] eq_refl eq_refl). vm_compute. reflexivity.
Defined.

Lemma resolve_dynamic_path_no_zero_index_witness :
  resolve_dynamic_path income_accepted "dependents" = Some "dependents".
Proof.
  assert (H : exists p, resolve_dynamic_path income_accepted "dependents" = Some p)
    by (eexists; vm_compute; reflexivity).
  destruct H as [p H]. rewrite H.
  rewrite (resolve_dynamic_path_no_zero_index income_accepted "dependents" p eq_refl H). reflexivity.
Defined.

Lemma enum_correction_steps_back_witness :
  (turn no_json 2026 wf_income_primary primary_awaiting false "yes" None =
     Some (TNext primary_corrected true) /\
   get_by_path primary_corrected "income_sources[0].is_primary" = JStr "yes") /\
  exists st' r', turn no_json 2026 wf_income_primary primary_negative true "yes" None =
                   Some (TNext st' true) /\
                 get_rt st' = Some r' /\ dget r' (KS "active_index") = Some (JInt (-2)).
Proof.
  split.
  - assert (H : turn no_json 2026 wf_income_primary primary_awaiting false "yes" None =
                Some (TNext primary_corrected true)) by (vm_compute; reflexivity).
    split; [exact H|].
    destruct (enum_correction_steps_back no_json 2026 wf_income_primary primary_awaiting false "yes" None
                [(KS "active_index", JInt 2);
                 (KS "last_field", JStr "income_sources[0].is_primary");
                 (KS "awaiting_repeat_for", JStr "income_sources");
                 (KS "repeat_prompt", JStr "Another income source?")] 2
                "income_sources[0].is_primary"
                (mk_field "income_sources[0].is_primary" "enum" ["yes"; "no"]) "yes" _
                eq_refl eq_refl
                ltac:(change (List.length (meta_fields wf_income_primary)) with 3%nat; lia)
                eq_refl ltac:(discriminate) eq_refl eq_refl eq_refl eq_refl
                ltac:(vm_compute; reflexivity) ltac:(discriminate) H)
      as (st' & r' & Hres & Hg & _).
    injection Hres as <-. exact Hg.
  - destruct (turn no_json 2026 wf_income_primary primary_negative true "yes" None) as [res|] eqn:H;
      [|vm_compute in H; discriminate H].
    destruct (enum_correction_steps_back no_json 2026 wf_income_primary primary_negative true "yes" None
                [(KS "active_index", JInt (-1));
                 (KS "last_field", JStr "income_sources[0].is_primary")] (-1)
                "income_sources[0].is_primary"
                (mk_field "income_sources[0].is_primary" "enum" ["yes"; "no"]) "yes" res
                eq_refl eq_refl
                ltac:(change (List.length (meta_fields wf_income_primary)) with 3%nat; lia)
                eq_refl ltac:(discriminate) eq_refl eq_refl eq_refl eq_refl
                ltac:(vm_compute; reflexivity) ltac:(discriminate) H)
      as (st' & r' & Hres & _ & Hrt & Hai & _).
    exists st', r'. rewrite <- Hres. split; [reflexivity|]. split; [exact Hrt|]. exact Hai.
Defined.


Lemma valid_answer_advances_witness :
  exists st' r', after_capture 2026 wf_income dependents_answered (mk_field "dependents" "integer" []) =
                   Some (TNext st' true) /\ get_rt st' = Some r' /\
    dget r' (KS "active_index") = Some (JInt 2) /\ dget r' (KS "last_field") = Some (JStr "dependents").
Proof.
  assert (H : exists res, after_capture 2026 wf_income dependents_answered
                (mk_field "dependents" "integer" []) = Some res)
    by (eexists; vm_compute; reflexivity).
  destruct H as [res H].
  destruct (valid_answer_advances 2026 wf_income dependents_answered (mk_field "dependents" "integer" [])
              [(KS "active_index", JInt 1)] 1 "dependents" res
              eq_refl eq_refl eq_refl eq_refl ltac:(vm_compute; reflexivity) ltac:(vm_compute; reflexivity) H)
    as (st1 & r' & Hres & Hr & Hi & Hl & _).
  subst res. exists st1, r'. auto.
Defined.


Lemma invalid_answer_cleared_witness :
  exists st', after_capture 2026 wf_income amount_not_numeric
                (mk_field "income_sources[0].amount" "currency" []) = Some (TNext st' false) /\
    get_by_path st' "income_sources[0].amount" = JNull.
Proof.
  assert (H : exists res, after_capture 2026 wf_income amount_not_numeric
                (mk_field "income_sources[0].amount" "currency" []) = Some res)
    by (eexists; vm_compute; reflexivity).
  destruct H as [res H].
  destruct (invalid_answer_cleared 2026 wf_income amount_not_numeric
              (mk_field "income_sources[0].amount" "currency" []) "income_sources[0].amount" res
              eq_refl eq_refl eq_refl ltac:(vm_compute; reflexivity) H) as (st' & Hres & Hg & _).
  subst res. exists st'. auto.
Defined.

Lemma normalize_enum_spaced_form_witness :
  exists v, normalize_enum "self employed" ["salaried"; "self_employed"] = Some v /\
    underscores_to_spaces v = "self employed".
Proof.
  destruct (normalize_enum_spaced_form "self_employed" ["salaried"; "self_employed"]
              ltac:(simpl; tauto) ltac:(vm_compute; reflexivity)
              ltac:(vm_compute; discriminate) ltac:(vm_compute; discriminate)) as (v & H1 & H2).
  exists v. vm_compute in H1, H2. vm_compute. split; assumption.
Defined.

Lemma set_by_path_round_trip_witness :
  get_by_path (JObj [(KS "income_sources", JList [JObj [(KS "amount", JInt 5)]])])
              "income_sources[0].amount" = JInt 5.
Proof.
  apply (set_by_path_round_trip (JObj []) "income_sources[0].amount" (JInt 5)).
  vm_compute. reflexivity.
Defined.

Lemma set_by_path_fresh_branch_witness :
  set_by_path (JObj []) "income_sources[0].amount" (JInt 5) <> None /\
  set_by_path (JObj []) "a[-1]" (JInt 1) = None.
Proof.
  split.
  - apply (proj2 (set_by_path_fresh_branch [] "income_sources[0].amount" (JInt 5)
                    "income_sources" [PI 0; PK "amount"]
                    ltac:(vm_compute; reflexivity) eq_refl)).
    reflexivity.
  - destruct (set_by_path (JObj []) "a[-1]" (JInt 1)) as [x|] eqn:E; [|reflexivity].
    exfalso.
    assert (H : forallb index_nonneg [PI (-1)] = true).
    { apply (proj1 (set_by_path_fresh_branch [] "a[-1]" (JInt 1) "a" [PI (-1)]
                      ltac:(vm_compute; reflexivity) eq_refl)).
      rewrite E. discriminate. }
    discriminate H.
Defined.
